(** * Wavelink: the player (session coordinator) and its tracks

    A shallow embedding of [wavelink/track.py] and [wavelink/player.py].

    Python values that the code handles without looking at their type
    (entries of the [info] dictionary, keyword arguments of a command) are
    kept dynamically typed in [Py.value]; an operation that Python rejects
    at run time returns [Raise] with the exception the interpreter raises.
    Wall-clock readings ([time.time() * 1000]) are exact rationals: the
    rounding of binary floating point is abstracted, fractional
    milliseconds are not. *)

From Stdlib Require Import ZArith QArith Qminmax Qround Lqa.
From Stdlib Require Import DecimalString DecimalZ String Ascii List.
From stdpp Require Import gmap strings list fin_maps functions.

Set Warnings "-register-all,-clear-no-such-hyp".
Open Scope string_scope.
Open Scope list_scope.
Open Scope Z_scope.

(** ** Python values, exceptions and results *)

Module Py.

Inductive value : Type :=
| VNone
| VBool (b : bool)
| VInt (z : Z)
| VFloat (q : Q)
| VStr (s : string)
| VDict (items : list (string * value)).

Inductive exn : Type :=
| TypeError
| KeyError
| AttributeError
| ZeroConnectedNodes (msg : string)
| WavelinkException (msg : string)
| SendError.

Inductive res (A : Type) : Type :=
| Ok (a : A)
| Raise (e : exn).

Arguments Ok {A} a.
Arguments Raise {A} e.

Definition is_ok {A} (r : res A) : bool :=
  match r with Ok _ => true | Raise _ => false end.

(** [str(n)] for an [int]: decimal digits, a leading [-] when negative. *)
Definition str (z : Z) : string := NilZero.string_of_int (Z.to_int z).

(** The inverse reading of a decimal string. *)
Definition int_of_str (s : string) : option Z :=
  option_map Z.of_int (NilZero.int_of_string s).

(** [int(x)] for a number: truncation toward zero. *)
Definition int (q : Q) : Z := Z.quot (Qnum q) (Z.pos (Qden q)).

(** The number a value stands for in arithmetic and comparisons with
    numbers; [None] where Python raises [TypeError]. *)
Definition as_num (v : value) : option Q :=
  match v with
  | VInt z => Some (inject_Z z)
  | VFloat q => Some q
  | VBool b => Some (inject_Z (Z.b2z b))
  | _ => None
  end.

Definition num (v : value) : res Q :=
  match as_num v with
  | Some q => Ok q
  | None => Raise TypeError
  end.

End Py.
Export Py.

(** ** wavelink/track.py *)

Module Track.

(** The character class [[a-zA-Z0-9_-]]. *)
Definition ytid_char (c : ascii) : bool :=
  let n := nat_of_ascii c in
  ((97 <=? n) && (n <=? 122))%nat
  || ((65 <=? n) && (n <=? 90))%nat
  || ((48 <=? n) && (n <=? 57))%nat
  || (n =? 95)%nat || (n =? 45)%nat.

Fixpoint all_ytid_chars (s : string) : bool :=
  match s with
  | EmptyString => true
  | String c s' => ytid_char c && all_ytid_chars s'
  end.

(** [re.match(r"^[a-zA-Z0-9_-]{11}$", s)] for a [str]: eleven characters
    of the class, then the end of the string; without [re.MULTILINE] the
    [$] of Python also matches just before one final newline. *)
Definition ytid_re_match (s : string) : bool :=
  all_ytid_chars (substring 0 11 s)
  && ((String.length s =? 11)%nat
      || ((String.length s =? 12)%nat
          && bool_decide (String.get 11 s = Some "010"%char))).

Record Track : Type := mkTrack {
  id : value;
  info : gmap string value;
  query : option string;
  title : value;
  identifier : value;
  ytid : option string;
  length : value;
  duration : value;
  uri : value;
  author : value;
  is_stream : value;
  dead : bool;
  thumb : option string
}.

(** [dict.get(key)]: the entry, [None] when the key is absent. *)
Definition get (d : gmap string value) (key : string) : value :=
  default VNone (d !! key).

Definition thumb_url (ytid : string) : string :=
  ("https://img.youtube.com/vi/" ++ ytid ++ "/maxresdefault.jpg")%string.

(** [Track.__init__(id_, info, query)].  [re.match] raises [TypeError]
    on anything that is not a string, [None] included. *)
Definition __init__ (id_ : value) (info : gmap string value)
    (query : option string) : res Track :=
  let title := get info "title" in
  let identifier := get info "identifier" in
  match identifier with
  | VStr s =>
      let ytid := if ytid_re_match s then Some s else None in
      let length := get info "length" in
      Ok {| id := id_; info := info; query := query;
            title := title; identifier := identifier; ytid := ytid;
            length := length; duration := length;
            uri := get info "uri"; author := get info "author";
            is_stream := get info "isStream"; dead := false;
            thumb := match ytid with
                     | Some y => if bool_decide (y = "") then None
                                 else Some (thumb_url y)
                     | None => None
                     end |}
  | _ => Raise TypeError
  end.

(** [Track.__str__] returns [self.title]; [str(track)] raises [TypeError]
    when that is not a string. *)
Definition __str__ (t : Track) : res string :=
  match title t with
  | VStr s => Ok s
  | _ => Raise TypeError
  end.

End Track.

Abbreviation Track := Track.Track.

(** ** wavelink/player.py *)

Module Player.

Definition node_id : Type := nat.
Definition player_ref : Type := nat.

(** The keyword arguments of one [Node._send] call. *)
Abbreviation payload := (gmap string value).

(** [discord.Guild], as far as the player reads it. *)
Record Guild : Type := mkGuild {
  g_id : Z;
  g_shard_id : Z;
  g_channels : list Z
}.

(** Modelled from the spec: [wavelink/node.py] is not among the sources.
    A node owns the registry [players] (group id to session), carries the
    [region] and [shard_id] affinity tags handed to the selector, and can
    be marked closing ([available = false]) and open again. *)
Record Node : Type := mkNode {
  players : gmap Z player_ref;
  region : option string;
  shard_id : option Z;
  available : bool
}.

Definition with_players (r : gmap Z player_ref) (n : Node) : Node :=
  {| players := r; region := region n; shard_id := shard_id n;
     available := available n |}.

Definition with_available (b : bool) (n : Node) : Node :=
  {| players := players n; region := region n; shard_id := shard_id n;
     available := b |}.

(** What the player does to the outside, in the order it does it. *)
Inductive event : Type :=
| Sent (n : node_id) (data : payload) (ok : bool)
| VoiceState (gid : Z) (chan : option string) (ok : bool)
| Deleted (n : node_id) (gid : Z)
| Stored (n : node_id) (gid : Z) (p : player_ref).

(** The attributes of a [Player]; [me] is the identity of the object and
    [guild] is [self.channel.guild]. *)
Record Player : Type := mkPlayer {
  me : player_ref;
  guild : Guild;
  channel : option Z;
  node : node_id;
  _voice_state : gmap string value;
  _connected : bool;
  last_update : value;
  last_position : value;
  position_timestamp : value;
  volume : Z;
  _paused : bool;
  _track : option Track
}.

Record World : Type := mkWorld {
  self : Player;
  nodes : node_id -> Node;
  trace : list event;
  ticks : nat
}.

Definition set_channel (c : option Z) (p : Player) : Player :=
  mkPlayer (me p) (guild p) c (node p) (_voice_state p) (_connected p)
    (last_update p) (last_position p) (position_timestamp p) (volume p)
    (_paused p) (_track p).

Definition set_node (n : node_id) (p : Player) : Player :=
  mkPlayer (me p) (guild p) (channel p) n (_voice_state p) (_connected p)
    (last_update p) (last_position p) (position_timestamp p) (volume p)
    (_paused p) (_track p).

Definition set_voice_state (vs : gmap string value) (p : Player) : Player :=
  mkPlayer (me p) (guild p) (channel p) (node p) vs (_connected p)
    (last_update p) (last_position p) (position_timestamp p) (volume p)
    (_paused p) (_track p).

Definition set_connected (b : bool) (p : Player) : Player :=
  mkPlayer (me p) (guild p) (channel p) (node p) (_voice_state p) b
    (last_update p) (last_position p) (position_timestamp p) (volume p)
    (_paused p) (_track p).

Definition set_last_update (v : value) (p : Player) : Player :=
  mkPlayer (me p) (guild p) (channel p) (node p) (_voice_state p)
    (_connected p) v (last_position p) (position_timestamp p) (volume p)
    (_paused p) (_track p).

Definition set_last_position (v : value) (p : Player) : Player :=
  mkPlayer (me p) (guild p) (channel p) (node p) (_voice_state p)
    (_connected p) (last_update p) v (position_timestamp p) (volume p)
    (_paused p) (_track p).

Definition set_position_timestamp (v : value) (p : Player) : Player :=
  mkPlayer (me p) (guild p) (channel p) (node p) (_voice_state p)
    (_connected p) (last_update p) (last_position p) v (volume p)
    (_paused p) (_track p).

Definition set_volume_attr (v : Z) (p : Player) : Player :=
  mkPlayer (me p) (guild p) (channel p) (node p) (_voice_state p)
    (_connected p) (last_update p) (last_position p) (position_timestamp p)
    v (_paused p) (_track p).

Definition set_paused (b : bool) (p : Player) : Player :=
  mkPlayer (me p) (guild p) (channel p) (node p) (_voice_state p)
    (_connected p) (last_update p) (last_position p) (position_timestamp p)
    (volume p) b (_track p).

Definition set_track (t : option Track) (p : Player) : Player :=
  mkPlayer (me p) (guild p) (channel p) (node p) (_voice_state p)
    (_connected p) (last_update p) (last_position p) (position_timestamp p)
    (volume p) (_paused p) t.

(** *** The monad of a method call: state, and exceptions that keep the
    state reached when they are raised. *)

Definition M (A : Type) : Type := World -> res A * World.

Definition ret {A} (a : A) : M A := fun w => (Ok a, w).

Definition raise {A} (e : exn) : M A := fun w => (Raise e, w).

Definition bind {A B} (m : M A) (k : A -> M B) : M B :=
  fun w =>
    match m w with
    | (Ok a, w') => k a w'
    | (Raise e, w') => (Raise e, w')
    end.

Definition lift {A} (r : res A) : M A := fun w => (r, w).

Declare Scope player_scope.
Delimit Scope player_scope with player.
Notation "'let*' x ':=' m 'in' k" := (bind m (fun x => k))
  (at level 10, x name, m at level 100, k at level 200) : player_scope.
Notation "m ';;;' k" := (bind m (fun _ => k))
  (at level 100, k at level 200, right associativity) : player_scope.
Open Scope player_scope.

Definition get_self : M Player := fun w => (Ok (self w), w).

Definition update (f : Player -> Player) : M unit :=
  fun w => (Ok tt, mkWorld (f (self w)) (nodes w) (trace w) (ticks w)).

Definition emit (e : event) : M unit :=
  fun w => (Ok tt, mkWorld (self w) (nodes w) (trace w ++ [e]) (ticks w)).

Definition get_node (n : node_id) : M Node := fun w => (Ok (nodes w n), w).

Definition put_node (n : node_id) (x : Node) : M unit :=
  fun w => (Ok tt, mkWorld (self w) (<[n := x]> (nodes w)) (trace w) (ticks w)).

Definition get_trace : M (list event) := fun w => (Ok (trace w), w).

(** [dict(op=..., guildId=..., ...)]. *)
Definition kwargs (items : list (string * value)) : payload :=
  list_to_map items.

Section Methods.

(** The collaborators that are not part of the sources.

    [transport tr n data] tells whether [Node._send] of node [n], called
    with the keyword arguments [data],
    returns ([true]) or raises ([false]) after the events [tr];
    [gateway] does the same for the shard socket's [voice_state];
    [clock k] is the [k]-th reading of [time.time() * 1000];
    [get_best_node] is the client's node selector. *)
Variable transport : list event -> node_id -> payload -> bool.
Variable gateway : list event -> Z -> option string -> bool.
Variable clock : nat -> Q.
Variable get_best_node :
  (node_id -> Node) -> option string -> option Z -> option node_id.

(** [await node._send] with the keyword arguments [data]. *)
Definition _send (n : node_id) (data : payload) : M unit :=
  let* tr := get_trace in
  let ok := transport tr n data in
  emit (Sent n data ok) ;;;
  if ok then ret tt else raise SendError.

(** [await ws.voice_state(guild_id, channel)]. *)
Definition voice_state (gid : Z) (chan : option string) : M unit :=
  let* tr := get_trace in
  let ok := gateway tr gid chan in
  emit (VoiceState gid chan ok) ;;;
  if ok then ret tt else raise SendError.

(** [time.time() * 1000]. *)
Definition time_ms : M Q :=
  fun w => (Ok (clock (ticks w)),
            mkWorld (self w) (nodes w) (trace w) (S (ticks w))).

(** [self.channel.id]: [AttributeError] once the channel is [None]. *)
Definition channel_id : M Z :=
  let* p := get_self in
  match channel p with
  | Some c => ret c
  | None => raise AttributeError
  end.

(** The property [guild]: [self.channel.guild]. *)
Definition get_guild : M Guild :=
  let* p := get_self in
  match channel p with
  | Some _ => ret (guild p)
  | None => raise AttributeError
  end.

(** [str(self.guild.id)]. *)
Definition guildId : M value :=
  let* g := get_guild in ret (VStr (str (g_id g))).

(** [del node.players[gid]]. *)
Definition del_player (n : node_id) (gid : Z) : M unit :=
  let* x := get_node n in
  match players x !! gid with
  | Some _ =>
      put_node n (with_players (delete gid (players x)) x) ;;;
      emit (Deleted n gid)
  | None => raise KeyError
  end.

(** [node.players[gid] = player]. *)
Definition store_player (n : node_id) (gid : Z) (p : player_ref) : M unit :=
  let* x := get_node n in
  put_node n (with_players (<[gid := p]> (players x)) x) ;;;
  emit (Stored n gid p).

(** Modelled from the spec: [Node.close] marks the node closing so that
    the selector stops assigning sessions to it; the sessions it has stay. *)
Definition close (n : node_id) : M unit :=
  let* x := get_node n in put_node n (with_available false x).

(** Modelled from the spec: [Node.open] marks the node open again. *)
Definition open (n : node_id) : M unit :=
  let* x := get_node n in put_node n (with_available true x).

Definition is_connected (p : Player) : bool := _connected p.

Definition is_playing (p : Player) : bool :=
  is_connected p && bool_decide (_track p <> None).

Definition is_paused (p : Player) : bool := _paused p.

(** The arithmetic of the property [position] at the clock reading
    [now]. *)
Definition position_at (now : Q) (p : Player) : res Q :=
  if negb (is_playing p) then Ok 0%Q
  else
    match _track p with
    | None => Ok 0%Q
    | Some t =>
        if is_paused p then
          match as_num (last_position p), as_num (Track.duration t) with
          | Some lp, Some d => Ok (Qmin lp d)
          | _, _ => Raise TypeError
          end
        else
          match as_num (last_update p), as_num (last_position p),
                as_num (Track.duration t) with
          | Some lu, Some lp, Some d =>
              let difference := (now - lu)%Q in
              let position := (lp + difference)%Q in
              if Qlt_le_dec d position then Ok 0%Q
              else Ok (Qmin position d)
          | _, _, _ => Raise TypeError
          end
    end.

(** The property [position]. *)
Definition position : M Q :=
  let* p := get_self in
  if negb (is_playing p) then ret 0%Q
  else if is_paused p then lift (position_at 0 p)
  else let* now := time_ms in lift (position_at now p).

(** [dict.get(key, 0)]. *)
Definition get0 (d : gmap string value) (key : string) : value :=
  default (VInt 0) (d !! key).

Definition update_state (state : gmap string (gmap string value)) : M unit :=
  match state !! "state" with
  | None => raise KeyError
  | Some state =>
      let* now := time_ms in
      update (set_last_update (VFloat now)) ;;;
      update (set_last_position (get0 state "position")) ;;;
      update (set_position_timestamp (get0 state "time"))
  end.

Definition handshake_keys : gset string := {["sessionId"; "event"]}.

Definition _dispatch_voice_update : M unit :=
  let* _ := channel_id in
  let* p := get_self in
  if bool_decide (dom (_voice_state p) = handshake_keys) then
    let* gid := guildId in
    let* p := get_self in
    _send (node p)
      (<["op" := VStr "voiceUpdate"]> (<["guildId" := gid]> (_voice_state p)))
  else ret tt.

Definition on_voice_server_update (data : value) : M unit :=
  let* p := get_self in
  update (set_voice_state (<["event" := data]> (_voice_state p))) ;;;
  _dispatch_voice_update.

(** The gateway sends [channel_id] as a decimal snowflake or [null];
    [Some c] stands for the string [str(c)], which is never empty. *)
Definition on_voice_state_update (session_id : value) (channel_id : option Z)
    : M unit :=
  let* p := get_self in
  update (set_voice_state (<["sessionId" := session_id]> (_voice_state p))) ;;;
  match channel_id with
  | None => update (set_voice_state ∅)
  | Some c =>
      let* g := get_guild in
      update (set_channel (List.find (Z.eqb c) (g_channels g))) ;;;
      _dispatch_voice_update
  end.

(** [events.py] is not among the sources; [hook] only asks whether the
    event is one of the three terminal ones. *)
Inductive wl_event : Type :=
| TrackEnd
| TrackException
| TrackStuck
| TrackStart.

Definition hook (ev : wl_event) : M unit :=
  match ev with
  | TrackEnd | TrackException | TrackStuck => update (set_track None)
  | TrackStart => ret tt
  end.

Definition connect : M unit :=
  let* g := get_guild in
  let* c := channel_id in
  voice_state (g_id g) (Some (str c)) ;;;
  update (set_connected true).

Definition disconnect : M unit :=
  let* _ := channel_id in
  let* g := get_guild in
  voice_state (g_id g) None ;;;
  update (set_connected false).

Definition play (track : Track) (replace : bool) (start end_ : Z) : M unit :=
  let* p := get_self in
  if replace || negb (is_playing p) then
    update (set_last_update (VInt 0)) ;;;
    update (set_last_position (VInt 0)) ;;;
    update (set_position_timestamp (VInt 0)) ;;;
    update (set_paused false) ;;;
    let no_replace := negb replace in
    update (set_track (Some track)) ;;;
    let* gid := guildId in
    let payload :=
      kwargs [("op", VStr "play"); ("guildId", gid);
              ("track", Track.id track); ("noReplace", VBool no_replace);
              ("startTime", VStr (str start))] in
    let payload :=
      if 0 <? end_ then <["endTime" := VStr (str end_)]> payload
      else payload in
    let* p := get_self in
    _send (node p) payload ;;;
    let* _ := lift (Track.__str__ track) in
    let* _ := channel_id in
    ret tt
  else ret tt.

(** [str(self.track)] in the log lines: ["None"] without a track. *)
Definition str_track (t : option Track) : res string :=
  match t with
  | None => Ok "None"
  | Some t => Track.__str__ t
  end.

Definition stop : M unit :=
  let* gid := guildId in
  let* p := get_self in
  _send (node p) (kwargs [("op", VStr "stop"); ("guildId", gid)]) ;;;
  let* p := get_self in
  let* _ := lift (str_track (_track p)) in
  let* _ := channel_id in
  update (set_track None).

Definition set_pause (pause : bool) : M unit :=
  let* gid := guildId in
  let* p := get_self in
  _send (node p)
    (kwargs [("op", VStr "pause"); ("guildId", gid); ("pause", VBool pause)]) ;;;
  update (set_paused pause) ;;;
  let* _ := channel_id in
  ret tt.

Definition pause : M unit := set_pause true.

Definition resume : M unit := set_pause false.

Definition set_volume (volume : Z) : M unit :=
  update (set_volume_attr (Z.max (Z.min volume 1000) 0)) ;;;
  let* gid := guildId in
  let* p := get_self in
  _send (node p)
    (kwargs [("op", VStr "volume"); ("guildId", gid);
             ("volume", VInt (Player.volume p))]) ;;;
  let* _ := channel_id in
  ret tt.

Definition seek (position : Z) : M unit :=
  let* gid := guildId in
  let* p := get_self in
  _send (node p)
    (kwargs [("op", VStr "seek"); ("guildId", gid);
             ("position", VInt position)]).

Definition already_on_node : string := "Player is already on this node.".
Definition no_nodes_available : string := "No Nodes available for changeover.".

(** Lines 294 to 304 of [change_node]: the node to change to. *)
Definition change_node_target (node : option node_id) : M node_id :=
  let* p := get_self in
  match node with
  | Some n =>
      if bool_decide (n = Player.node p)
      then raise (WavelinkException already_on_node)
      else ret n
  | None =>
      close (Player.node p) ;;;
      let* x := get_node (Player.node p) in
      let* best :=
        (fun w => (Ok (get_best_node (nodes w) (region x) (shard_id x)), w)) in
      open (Player.node p) ;;;
      match best with
      | None => raise (WavelinkException no_nodes_available)
      | Some n => ret n
      end
  end.

(** Lines 313 to 324 of [change_node]: the state replayed on the new
    node. *)
Definition change_node_replay : M unit :=
  let* p := get_self in
  (if bool_decide (_voice_state p <> ∅) then _dispatch_voice_update
   else ret tt) ;;;
  let* p := get_self in
  match _track p with
  | Some t =>
      let* gid := guildId in
      let* pos := position in
      _send (Player.node p)
        (kwargs [("op", VStr "play"); ("guildId", gid);
                 ("track", Track.id t); ("startTime", VInt (int pos))]) ;;;
      let* now := time_ms in
      update (set_last_update (VFloat now)) ;;;
      let* p := get_self in
      if is_paused p then
        let* gid := guildId in
        _send (Player.node p)
          (kwargs [("op", VStr "pause"); ("guildId", gid);
                   ("pause", VBool (_paused p))])
      else ret tt
  | None => ret tt
  end ;;;
  let* p := get_self in
  if bool_decide (Player.volume p <> 100) then
    let* gid := guildId in
    _send (Player.node p)
      (kwargs [("op", VStr "volume"); ("guildId", gid);
               ("volume", VInt (Player.volume p))])
  else ret tt.

Definition change_node (node : option node_id) : M unit :=
  let* node := change_node_target node in
  let* p := get_self in
  let old_node := Player.node p in
  let* g := get_guild in
  del_player old_node (g_id g) ;;;
  let* gid := guildId in
  _send old_node (kwargs [("op", VStr "destroy"); ("guildId", gid)]) ;;;
  update (set_node node) ;;;
  let* g := get_guild in
  store_player node (g_id g) (me p) ;;;
  change_node_replay.

Definition no_node_to_connect : string :=
  "Could not find a node to connect with.".

(** [Player.__init__(client, channel)]: [me] is the new object, the
    channel [c] belongs to the guild [g], and the remaining arguments are
    the state of the client the player is created in. *)
Definition __init__ (me : player_ref) (g : Guild) (c : Z)
    (nodes : node_id -> Node) (trace : list event) (ticks : nat)
    : res World :=
  match get_best_node nodes None None with
  | None => Raise (ZeroConnectedNodes no_node_to_connect)
  | Some n =>
      let p := {| me := me; guild := g; channel := Some c; node := n;
                  _voice_state := ∅; _connected := false;
                  last_update := VNone; last_position := VNone;
                  position_timestamp := VNone; volume := 100;
                  _paused := false; _track := None |} in
      match store_player n (g_id g) me (mkWorld p nodes trace ticks) with
      | (Ok _, w) => Ok w
      | (Raise e, _) => Raise e
      end
  end.

(** The calls a player receives. *)
Inductive call : Type :=
| Position
| UpdateState (state : gmap string (gmap string value))
| OnVoiceServerUpdate (data : value)
| OnVoiceStateUpdate (session_id : value) (channel_id : option Z)
| Hook (ev : wl_event)
| Connect
| Disconnect
| Play (track : Track) (replace : bool) (start end_ : Z)
| Stop
| SetPause (pause : bool)
| Pause
| Resume
| SetVolume (volume : Z)
| Seek (position : Z)
| ChangeNode (node : option node_id).

Definition exec (c : call) : M unit :=
  match c with
  | Position => let* _ := position in ret tt
  | UpdateState state => update_state state
  | OnVoiceServerUpdate data => on_voice_server_update data
  | OnVoiceStateUpdate sid cid => on_voice_state_update sid cid
  | Hook ev => hook ev
  | Connect => connect
  | Disconnect => disconnect
  | Play t r s e => play t r s e
  | Stop => stop
  | SetPause b => set_pause b
  | Pause => pause
  | Resume => resume
  | SetVolume v => set_volume v
  | Seek pos => seek pos
  | ChangeNode n => change_node n
  end.

(** The state after a sequence of calls, whatever each one returns. *)
Definition run (cs : list call) (w : World) : World :=
  fold_left (fun w c => snd (exec c w)) cs w.

(** The worlds a player can be in: created by [__init__], then driven by
    calls. *)
Inductive reachable : World -> Prop :=
| reach_init me g c nodes trace ticks w :
    __init__ me g c nodes trace ticks = Ok w -> reachable w
| reach_call w c : reachable w -> reachable (snd (exec c w)).

End Methods.

(** *** The specification's vocabulary, for comparison with the code *)

(** [clamp(v, lo, hi)]. *)
Definition clamp (v lo hi : Z) : Z :=
  if v <? lo then lo else if hi <? v then hi else v.

(** [round(x)]: the nearest integer, a tie going to the even one. *)
Definition round (q : Q) : Z :=
  let fl := Qfloor q in
  match ((q - inject_Z fl) ?= 1 # 2)%Q with
  | Lt => fl
  | Gt => fl + 1
  | Eq => if Z.even fl then fl else fl + 1
  end.

(** The position read as the specification words it, over the numbers
    the session holds: 0 without a connection or a track; the stored
    position, at most the duration, when paused; otherwise the stored
    position plus the time since the last report, 0 when that exceeds the
    duration and at most the duration otherwise. *)
Definition position_spec (connected has_track paused : bool)
    (lastPositionMs lastUpdateTimestampMs durationMs now_ms : Q) : Q :=
  if negb connected || negb has_track then 0%Q
  else if paused then Qmin lastPositionMs durationMs
  else
    let sum := (lastPositionMs + (now_ms - lastUpdateTimestampMs))%Q in
    if Qlt_le_dec durationMs sum then 0%Q else Qmin sum durationMs.

(** The merged voice updates among the events, oldest first. *)
Definition voice_updates (tr : list event) : list payload :=
  omap (fun e =>
          match e with
          | Sent _ data _ =>
              match data !! "op" with
              | Some (VStr "voiceUpdate") => Some data
              | _ => None
              end
          | _ => None
          end) tr.

(** The registries after the events [evs], starting from [reg]. *)
Fixpoint registry_after (evs : list event) (reg : node_id -> gmap Z player_ref)
    : node_id -> gmap Z player_ref :=
  match evs with
  | [] => reg
  | Deleted n gid :: evs' => registry_after evs' (<[n := delete gid (reg n)]> reg)
  | Stored n gid p :: evs' => registry_after evs' (<[n := <[gid := p]> (reg n)]> reg)
  | _ :: evs' => registry_after evs' reg
  end.

Definition registry (w : World) : node_id -> gmap Z player_ref :=
  fun n => players (nodes w n).

(** The session [p] of group [gid] is registered on at most one node. *)
Definition exclusive (reg : node_id -> gmap Z player_ref) (gid : Z)
    (p : player_ref) : Prop :=
  forall n m, reg n !! gid = Some p -> reg m !! gid = Some p -> n = m.

Definition is_sent (e : event) : bool :=
  match e with Sent _ _ _ => true | _ => false end.

(** The selector never hands out a node that is marked closing. *)
Definition respects_closing
    (get_best_node :
       (node_id -> Node) -> option string -> option Z -> option node_id)
    : Prop :=
  forall ns r s n, get_best_node ns r s = Some n -> available (ns n) = true.

(** A computation leaves the observation [f] of the world alone. *)
Definition preserves {A X} (f : World -> X) (m : M A) : Prop :=
  forall w, f (snd (m w)) = f w.

(** A computation keeps the property [P] of the player. *)
Definition maintains {A} (P : Player -> Prop) (m : M A) : Prop :=
  forall w, P (self w) -> P (self (snd (m w))).

(** While a track is loaded, [last_update] holds a number. *)
Definition clocked (p : Player) : Prop :=
  _track p <> None -> is_Some (as_num (last_update p)).

(** The events after which [hook] drops the track. *)
Definition terminal (ev : wl_event) : bool :=
  match ev with
  | TrackEnd | TrackException | TrackStuck => true
  | TrackStart => false
  end.

(** A computation adds nothing but commands to the trace. *)
Definition sends_only {A} (m : M A) : Prop :=
  forall w, exists rest,
    trace (snd (m w)) = trace w ++ rest /\ forallb is_sent rest = true.

(** The steps of a changeover, as changes of the world: the session of
    group [gid] taken out of the registry of node [old]; a command handed
    to the transport; the session moved to node [new] and entered in its
    registry. *)
Definition detached (old : node_id) (gid : Z) (w : World) : World :=
  mkWorld (self w)
    (<[old := with_players (delete gid (players (nodes w old))) (nodes w old)]>
       (nodes w))
    (trace w ++ [Deleted old gid]) (ticks w).

Definition told (n : node_id) (data : payload) (ok : bool) (w : World)
    : World :=
  mkWorld (self w) (nodes w) (trace w ++ [Sent n data ok]) (ticks w).

Definition attached (new : node_id) (gid : Z) (w : World) : World :=
  mkWorld (set_node new (self w))
    (<[new := with_players (<[gid := me (self w)]> (players (nodes w new)))
                (nodes w new)]> (nodes w))
    (trace w ++ [Stored new gid (me (self w))]) (ticks w).

(** The [destroy] command of a changeover. *)
Definition destroy_command (gid : Z) : payload :=
  kwargs [("op", VStr "destroy"); ("guildId", VStr (str gid))].

(** *** Sample collaborators and sessions *)

Module Sample.

Definition lossless : list event -> node_id -> payload -> bool :=
  fun _ _ _ => true.

Definition dead : list event -> node_id -> payload -> bool :=
  fun _ _ _ => false.

(** A transport that loses exactly the [destroy] commands. *)
Definition no_destroy : list event -> node_id -> payload -> bool :=
  fun _ _ data =>
    match data !! "op" with
    | Some (VStr "destroy") => false
    | _ => true
    end.

Definition gateway : list event -> Z -> option string -> bool :=
  fun _ _ _ => true.

(** Readings 1234.7 ms apart. *)
Definition clock (k : nat) : Q :=
  (inject_Z 1700000000000 + inject_Z (Z.of_nat k) * (12347 # 10))%Q.

(** The first open node among nodes 0, 1 and 2. *)
Definition first_open (ns : node_id -> Node) (_ : option string)
    (_ : option Z) : option node_id :=
  List.find (fun n => available (ns n)) [0; 1; 2]%nat.

Definition none_open (ns : node_id -> Node) (_ : option string)
    (_ : option Z) : option node_id := None.

Definition fresh_nodes : node_id -> Node :=
  fun _ => {| players := ∅; region := None; shard_id := None;
              available := true |}.

Definition the_guild : Guild :=
  {| g_id := 42; g_shard_id := 0; g_channels := [7; 8] |}.

Definition song_info : gmap string value :=
  list_to_map [("title", VStr "Song"); ("identifier", VStr "dQw4w9WgXcQ");
               ("length", VInt 240000); ("uri", VStr "https://youtu.be/dQw4w9WgXcQ");
               ("author", VStr "Band"); ("isStream", VBool false)].

Definition song : Track :=
  match Track.__init__ (VStr "QAAAjQIAJVJpY2s=") song_info None with
  | Ok t => t
  | Raise _ =>
      Track.mkTrack VNone ∅ None VNone VNone None VNone VNone VNone VNone
        VNone false None
  end.

(** A track description without a [title]. *)
Definition untitled_info : gmap string value :=
  list_to_map [("identifier", VStr "O2ulyJuvU3Q"); ("length", VInt 1000);
               ("isStream", VBool false)].

Definition untitled : Track :=
  match Track.__init__ (VStr "QAAAdAIABkxvZmk=") untitled_info None with
  | Ok t => t
  | Raise _ => song
  end.

(** A track description without an [identifier]. *)
Definition local_file_info : gmap string value :=
  list_to_map [("title", VStr "Recording"); ("length", VInt 1000);
               ("uri", VStr "file:///tmp/a.mp3"); ("isStream", VBool false)].

Definition server_event : value :=
  VDict [("token", VStr "abc"); ("guild_id", VStr "42");
         ("endpoint", VStr "eu.example.org")].

Definition start (sel : (node_id -> Node) -> option string -> option Z
                         -> option node_id) : World :=
  match __init__ sel 1%nat the_guild 7 fresh_nodes [] 0 with
  | Ok w => w
  | Raise _ =>
      mkWorld (mkPlayer 1%nat the_guild None 0%nat ∅ false VNone VNone VNone
                 100 false None) fresh_nodes [] 0
  end.

(** A freshly created session. *)
Definition idle : World := start first_open.

(** Connected, handshake done, a song playing since the first clock
    reading. *)
Definition playing (tr : list event -> node_id -> payload -> bool) : World :=
  run tr gateway clock first_open
    [Connect; OnVoiceStateUpdate (VStr "sess") (Some 7);
     OnVoiceServerUpdate server_event; Play song true 0 0;
     UpdateState {["state" := {["position" := VInt 0; "time" := VInt 0]}]}]
    idle.

End Sample.

End Player.

Import Player.

(** * Properties *)

(** ** Auxiliary facts *)

Lemma to_int_not_nil (z : Z) :
  Z.to_int z <> Decimal.Pos Decimal.Nil /\ Z.to_int z <> Decimal.Neg Decimal.Nil.
Proof.
  destruct z as [|p|p]; simpl; split; try discriminate;
    intros H; injection H as H;
    exact (DecimalPos.Unsigned.to_uint_nonnil p H).
Qed.

(** [str] loses nothing: the decimal string reads back as the integer. *)
Lemma int_of_str_str (z : Z) : int_of_str (str z) = Some z.
Proof.
  unfold int_of_str, str. destruct (to_int_not_nil z) as [H1 H2].
  rewrite NilZero.isi by assumption. simpl. f_equal. apply DecimalZ.of_to.
Qed.

Lemma str_inj (a b : Z) : str a = str b -> a = b.
Proof.
  intros H. pose proof (int_of_str_str a) as Ha.
  rewrite H, int_of_str_str in Ha. congruence.
Qed.

(** [max(min(v, 1000), 0)] is the specification's [clamp(v, 0, 1000)]. *)
Lemma max_min_clamp (v : Z) : Z.max (Z.min v 1000) 0 = clamp v 0 1000.
Proof.
  unfold clamp.
  destruct (Z.ltb_spec v 0); [lia|].
  destruct (Z.ltb_spec 1000 v); lia.
Qed.

Lemma clamp_range (v : Z) : 0 <= clamp v 0 1000 <= 1000.
Proof. rewrite <- max_min_clamp. lia. Qed.

Section Frame.

Context {X : Type} (f : World -> X).

Lemma preserves_ret {A} (a : A) : preserves f (ret a).
Proof. intros w. reflexivity. Qed.

Lemma preserves_raise {A} (e : exn) : preserves f (@raise A e).
Proof. intros w. reflexivity. Qed.

Lemma preserves_lift {A} (r : res A) : preserves f (lift r).
Proof. intros w. reflexivity. Qed.

Lemma preserves_get_self : preserves f get_self.
Proof. intros w. reflexivity. Qed.

Lemma preserves_get_node n : preserves f (get_node n).
Proof. intros w. reflexivity. Qed.

Lemma preserves_get_trace : preserves f get_trace.
Proof. intros w. reflexivity. Qed.

Lemma preserves_bind {A B} (m : M A) (k : A -> M B) :
  preserves f m -> (forall a, preserves f (k a)) -> preserves f (bind m k).
Proof.
  intros Hm Hk w. unfold bind. specialize (Hm w).
  destruct (m w) as [[a|e] w1]; simpl in *.
  - rewrite Hk. exact Hm.
  - exact Hm.
Qed.

Lemma preserves_fun {A} (g : World -> res A) :
  preserves f (fun w => (g w, w)).
Proof. intros w. reflexivity. Qed.

End Frame.

(** The observations that only depend on the player. *)
Lemma preserves_emit {X} (g : Player -> X) e :
  preserves (fun w => g (self w)) (emit e).
Proof. intros w. reflexivity. Qed.

Lemma preserves_put_node {X} (g : Player -> X) n x :
  preserves (fun w => g (self w)) (put_node n x).
Proof. intros w. reflexivity. Qed.

Lemma preserves_time_ms {X} (g : Player -> X) clock :
  preserves (fun w => g (self w)) (time_ms clock).
Proof. intros w. reflexivity. Qed.

Lemma preserves_update {X} (g : Player -> X) (h : Player -> Player) :
  (forall p, g (h p) = g p) -> preserves (fun w => g (self w)) (update h).
Proof. intros H w. simpl. apply H. Qed.

(** The registries are only written by [put_node]. *)
Lemma preserves_nodes_emit e : preserves nodes (emit e).
Proof. intros w. reflexivity. Qed.

Lemma preserves_nodes_time_ms clock : preserves nodes (time_ms clock).
Proof. intros w. reflexivity. Qed.

Lemma preserves_nodes_update h : preserves nodes (update h).
Proof. intros w. reflexivity. Qed.

(** The trace is only written by [emit]. *)
Section SendsOnly.

Lemma sends_only_quiet {A} (m : M A) : preserves trace m -> sends_only m.
Proof.
  intros H w. exists []. rewrite app_nil_r. split; [apply H|reflexivity].
Qed.

Lemma sends_only_emit n data ok : sends_only (emit (Sent n data ok)).
Proof. intros w. exists [Sent n data ok]. split; reflexivity. Qed.

Lemma sends_only_bind {A B} (m : M A) (k : A -> M B) :
  sends_only m -> (forall a, sends_only (k a)) -> sends_only (bind m k).
Proof.
  intros Hm Hk w. unfold bind. destruct (Hm w) as (r1 & H1 & Hs1).
  destruct (m w) as [[a|e] w1]; simpl in *.
  - destruct (Hk a w1) as (r2 & H2 & Hs2). exists (r1 ++ r2).
    rewrite H2, H1, <- app_assoc, forallb_app, Hs1, Hs2. split; reflexivity.
  - exists r1. split; assumption.
Qed.

End SendsOnly.

Ltac frame_step :=
  match goal with
  | |- preserves _ (bind _ _) => apply preserves_bind; [|intros]
  | |- preserves _ (ret _) => apply preserves_ret
  | |- preserves _ (raise _) => apply preserves_raise
  | |- preserves _ (lift _) => apply preserves_lift
  | |- preserves _ get_self => apply preserves_get_self
  | |- preserves _ get_trace => apply preserves_get_trace
  | |- preserves _ (get_node _) => apply preserves_get_node
  | |- preserves _ (emit _) =>
      first [apply preserves_emit | apply preserves_nodes_emit]
  | |- preserves _ (put_node _ _) => apply preserves_put_node
  | |- preserves _ (time_ms _) =>
      first [apply preserves_time_ms | apply preserves_nodes_time_ms]
  | |- preserves _ (update _) =>
      first [apply preserves_update; intros; reflexivity
            | apply preserves_nodes_update]
  | |- preserves _ (fun w => (_, w)) => apply preserves_fun
  | |- preserves _ (if ?b then _ else _) => destruct b
  | |- preserves _ (match ?x with _ => _ end) => destruct x
  end.

Ltac unfold_methods :=
  unfold exec, change_node, change_node_replay, change_node_target,
    seek, set_volume, resume, pause, set_pause, stop, play, disconnect,
    connect, hook, on_voice_state_update, on_voice_server_update,
    _dispatch_voice_update, update_state, position, close, open,
    store_player, del_player, guildId, get_guild, channel_id,
    voice_state, _send.

Ltac frame := unfold_methods; repeat frame_step.

Ltac quiet_step :=
  match goal with
  | |- sends_only (bind _ _) => apply sends_only_bind; [|intros]
  | |- sends_only (emit (Sent _ _ _)) => apply sends_only_emit
  | |- sends_only (if ?b then _ else _) => destruct b
  | |- sends_only (match ?x with _ => _ end) => destruct x
  | |- sends_only _ => apply sends_only_quiet; intros ?; reflexivity
  end.

Ltac quiet := unfold_methods; repeat quiet_step.

Ltac run_m :=
  unfold_methods;
  unfold bind, ret, raise, lift, get_self, update, emit, get_node, put_node,
    get_trace, time_ms;
  simpl.

Ltac open_world w :=
  destruct w as [[? ? ? ? ? ? ? ? ? ? ? ?] ? ? ?]; simpl in *.

Ltac cases :=
  repeat (simpl;
          match goal with
          | |- context [match ?x with _ => _ end] =>
              lazymatch x with
              | context [match _ with _ => _ end] => fail
              | _ => destruct x eqn:?
              end
          end);
  simpl.

Section Properties.

Variable transport : list event -> node_id -> payload -> bool.
Variable gateway : list event -> Z -> option string -> bool.
Variable clock : nat -> Q.
Variable get_best_node :
  (node_id -> Node) -> option string -> option Z -> option node_id.


(** Only [set_volume] writes the attribute [volume]. *)
Lemma exec_keeps_volume (c : call) :
  (forall v, c <> SetVolume v) ->
  preserves (fun w => volume (self w))
    (exec transport gateway clock get_best_node c).
Proof.
  intros H. destruct c; try (frame; fail).
  exfalso. eapply H. reflexivity.
Qed.

Lemma set_volume_stores (v : Z) (w : World) :
  volume (self (snd (set_volume transport v w))) = clamp v 0 1000.
Proof.
  rewrite <- max_min_clamp. open_world w. run_m. cases; reflexivity.
Qed.

Lemma set_volume_sends (v : Z) (w : World) (c : Z) :
  channel (self w) = Some c ->
  let data := kwargs [("op", VStr "volume");
                      ("guildId", VStr (str (g_id (guild (self w)))));
                      ("volume", VInt (clamp v 0 1000))] in
  trace (snd (set_volume transport v w)) =
  trace w ++ [Sent (node (self w)) data (transport (trace w) (node (self w)) data)].
Proof.
  intros Hc. rewrite <- max_min_clamp. open_world w. subst. run_m.
  cases; reflexivity.
Qed.

Lemma init_volume me g c ns tr tk w :
  __init__ get_best_node me g c ns tr tk = Ok w -> volume (self w) = 100.
Proof.
  unfold __init__. destruct (get_best_node ns None None); [|discriminate].
  run_m. intros H. injection H as <-. reflexivity.
Qed.

Lemma reachable_volume (w : World) :
  reachable transport gateway clock get_best_node w ->
  0 <= volume (self w) <= 1000.
Proof.
  induction 1 as [me g c ns tr tk w Hinit | w c Hw IH].
  - rewrite (init_volume _ _ _ _ _ _ _ Hinit). lia.
  - destruct c;
      try (rewrite exec_keeps_volume; [exact IH | intros; discriminate]).
    simpl. rewrite set_volume_stores. apply clamp_range.
Qed.

(** C8: after [set_volume v] the stored volume is [clamp v 0 1000],
    whatever the sign or size of [v]; the one command it sends (the
    session having a channel) is a [volume] command that carries this
    same value; and the volume of a session, 100 when it is created, is
    within 0 and 1000 in every state the session can reach. *)
Theorem set_volume_clamps :
  (forall w v, volume (self (snd (set_volume transport v w))) = clamp v 0 1000)
  /\ (forall w v c,
        channel (self w) = Some c ->
        let data := kwargs [("op", VStr "volume");
                            ("guildId", VStr (str (g_id (guild (self w)))));
                            ("volume", VInt (clamp v 0 1000))] in
        trace (snd (set_volume transport v w)) =
        trace w ++
          [Sent (node (self w)) data
             (transport (trace w) (node (self w)) data)])
  /\ (forall w,
        reachable transport gateway clock get_best_node w ->
        0 <= volume (self w) <= 1000).
Proof.
  split; [intros w v; apply set_volume_stores|].
  split; [intros w v c; apply set_volume_sends|exact reachable_volume].
Qed.

(** ** The playback controller *)

(** C10: [set_volume] writes the volume mirror before it sends, so the
    mirror holds the clamped value whether or not the send returns;
    [set_pause] and [stop] send first and write [_paused] and [_track]
    afterwards, so a send that raises leaves the player as it was. *)
Theorem mirror_update_order (w : World) (c : Z) :
  channel (self w) = Some c ->
  let n := node (self w) in
  let gid := VStr (str (g_id (guild (self w)))) in
  (forall v,
     let data := kwargs [("op", VStr "volume"); ("guildId", gid);
                         ("volume", VInt (clamp v 0 1000))] in
     let ok := transport (trace w) n data in
     set_volume transport v w =
     (if ok then Ok tt else Raise SendError,
      mkWorld (set_volume_attr (clamp v 0 1000) (self w)) (nodes w)
        (trace w ++ [Sent n data ok]) (ticks w)))
  /\ (forall pause,
        let data := kwargs [("op", VStr "pause"); ("guildId", gid);
                            ("pause", VBool pause)] in
        let ok := transport (trace w) n data in
        set_pause transport pause w =
        (if ok then Ok tt else Raise SendError,
         mkWorld (if ok then set_paused pause (self w) else self w) (nodes w)
           (trace w ++ [Sent n data ok]) (ticks w)))
  /\ (let data := kwargs [("op", VStr "stop"); ("guildId", gid)] in
      let ok := transport (trace w) n data in
      let named := str_track (_track (self w)) in
      stop transport w =
      (if ok then match named with Ok _ => Ok tt | Raise e => Raise e end
       else Raise SendError,
       mkWorld (if ok && is_ok named then set_track None (self w) else self w)
         (nodes w) (trace w ++ [Sent n data ok]) (ticks w))).
Proof.
  intros Hc. open_world w. subst. repeat split; intros.
  - rewrite <- max_min_clamp. run_m. cases; reflexivity.
  - run_m. cases; reflexivity.
  - run_m. cases; reflexivity.
Qed.


(** The keyword arguments of the command [play] builds. *)
Lemma play_run (t : Track) (replace : bool) (start end_ : Z) (w : World)
    (c : Z) :
  channel (self w) = Some c ->
  (replace || negb (is_playing (self w))) = true ->
  let base := kwargs [("op", VStr "play");
                      ("guildId", VStr (str (g_id (guild (self w)))));
                      ("track", Track.id t);
                      ("noReplace", VBool (negb replace));
                      ("startTime", VStr (str start))] in
  let data := if 0 <? end_ then <["endTime" := VStr (str end_)]> base
              else base in
  snd (play transport t replace start end_ w) =
  mkWorld
    (set_track (Some t)
       (set_paused false
          (set_position_timestamp (VInt 0)
             (set_last_position (VInt 0)
                (set_last_update (VInt 0) (self w))))))
    (nodes w)
    (trace w ++
       [Sent (node (self w)) data (transport (trace w) (node (self w)) data)])
    (ticks w).
Proof.
  intros Hc Hgo. open_world w. subst. unfold play. unfold bind at 1.
  simpl. rewrite Hgo. run_m. cases; reflexivity.
Qed.

(** C2: [play] with [replace = false] on a session that is playing does
    nothing at all; in every other case it sets the three timing fields
    to 0, clears [_paused], stores the track and calls [_send] once, with
    a [play] command whose [noReplace] is [not replace], whose
    [startTime] is [start] (written in decimal, as the code sends it) and
    which has an [endTime] exactly when [end > 0]. *)
Theorem play_spec (t : Track) (replace : bool) (start end_ : Z)
    (w : World) (c : Z) :
  channel (self w) = Some c ->
  let w' := snd (play transport t replace start end_ w) in
  if negb replace && is_playing (self w) then
    play transport t replace start end_ w = (Ok tt, w)
  else
    last_update (self w') = VInt 0
    /\ last_position (self w') = VInt 0
    /\ position_timestamp (self w') = VInt 0
    /\ _paused (self w') = false
    /\ _track (self w') = Some t
    /\ exists data,
         trace w' =
         trace w ++
           [Sent (node (self w)) data
              (transport (trace w) (node (self w)) data)]
         /\ data !! "op" = Some (VStr "play")
         /\ data !! "guildId" = Some (VStr (str (g_id (guild (self w)))))
         /\ data !! "track" = Some (Track.id t)
         /\ data !! "noReplace" = Some (VBool (negb replace))
         /\ data !! "startTime" = Some (VStr (str start))
         /\ data !! "endTime" =
            (if 0 <? end_ then Some (VStr (str end_)) else None)
         /\ dom data =
            {["op"; "guildId"; "track"; "noReplace"; "startTime"]}
            ∪ (if 0 <? end_ then {["endTime"]} else ∅).
Proof.
  intros Hc w'.
  destruct (negb replace && is_playing (self w)) eqn:Hnoop.
  - unfold play. unfold bind at 1. simpl.
    replace (replace || negb (is_playing (self w))) with false
      by (destruct replace, (is_playing (self w)); simpl in *; congruence).
    destruct w; reflexivity.
  - assert (Hgo : (replace || negb (is_playing (self w))) = true)
      by (destruct replace, (is_playing (self w)); simpl in *; congruence).
    subst w'. rewrite (play_run t replace start end_ w c Hc Hgo). simpl.
    repeat (split; [reflexivity|]).
    eexists. split; [reflexivity|].
    unfold kwargs. simpl.
    destruct (0 <? end_); simplify_map_eq; repeat (split; [reflexivity|]).
    + rewrite !dom_insert_L, dom_empty_L. set_solver.
    + rewrite !dom_insert_L, dom_empty_L. set_solver.
Qed.


(** ** The position tracker *)

(** The property [position] computes [position_at] on the next clock
    reading and touches neither the player, nor the registries, nor the
    outside. *)
Lemma position_run (w : World) :
  fst (position clock w) = position_at (clock (ticks w)) (self w)
  /\ self (snd (position clock w)) = self w
  /\ nodes (snd (position clock w)) = nodes w
  /\ trace (snd (position clock w)) = trace w.
Proof.
  open_world w. unfold position, position_at. run_m.
  cases; repeat split; reflexivity.
Qed.

(** C3: the position read of a session is the one the specification
    words, at the clock reading [now_ms] of the read: 0 when not connected
    or without a track, [min(lastPositionMs, durationMs)] when paused, and
    otherwise [lastPositionMs + (now_ms - lastUpdateTimestampMs)],
    replaced by 0 above the duration and by at most the duration below;
    the three quantities are the numbers held by the timing fields and
    the track while the session is playing.  The read leaves the session,
    the registries and the outside as they were. *)
Theorem position_reads (w : World) (lu lp d : Q) :
  (forall t,
     _connected (self w) = true -> _track (self w) = Some t ->
     as_num (last_update (self w)) = Some lu
     /\ as_num (last_position (self w)) = Some lp
     /\ as_num (Track.duration t) = Some d) ->
  let now_ms := clock (ticks w) in
  let w' := snd (position clock w) in
  fst (position clock w) =
    Ok (position_spec (_connected (self w))
          (bool_decide (_track (self w) <> None)) (_paused (self w))
          lp lu d now_ms)
  /\ self w' = self w /\ nodes w' = nodes w /\ trace w' = trace w.
Proof.
  intros Hnum now_ms w'.
  destruct (position_run w) as (Hr & Hs & Hn & Ht).
  split; [|auto]. rewrite Hr. subst now_ms.
  unfold position_at, position_spec, is_playing, is_connected, is_paused.
  destruct (_connected (self w)) eqn:Hc; simpl; [|reflexivity].
  destruct (_track (self w)) as [t|] eqn:Ht'; simpl; [|reflexivity].
  destruct (Hnum t eq_refl eq_refl) as (-> & -> & ->).
  destruct (_paused (self w)); [reflexivity|].
  destruct (Qlt_le_dec _ _); reflexivity.
Qed.

(** Below the duration the clamp is the identity: the read is the stored
    position plus the time elapsed. *)
Lemma position_spec_running (lp lu d now : Q) :
  (lp + (now - lu) <= d)%Q ->
  (position_spec true true false lp lu d now == lp + (now - lu))%Q.
Proof.
  intros H. unfold position_spec. simpl.
  destruct (Qlt_le_dec _ _) as [Hlt|Hle].
  - exfalso. apply (Qlt_not_le _ _ Hlt H).
  - apply Q.min_l. exact H.
Qed.

(** The read never exceeds the duration of a track of positive length. *)
Lemma position_spec_bounded (c h p : bool) (lp lu d now : Q) :
  (0 <= d)%Q -> (position_spec c h p lp lu d now <= d)%Q.
Proof.
  intros Hd. unfold position_spec.
  destruct (negb c || negb h); [exact Hd|].
  destruct p; [apply Q.le_min_r|].
  destruct (Qlt_le_dec _ _); [exact Hd|apply Q.le_min_r].
Qed.


(** ** The voice handshake *)

Lemma dom_with_event (vs : gmap string value) (data : value) :
  dom vs ⊆ handshake_keys ->
  dom (<["event" := data]> vs) = handshake_keys <-> is_Some (vs !! "sessionId").
Proof.
  intros Hsub. rewrite dom_insert_L, <- elem_of_dom. unfold handshake_keys in *.
  split.
  - intros H. assert (Hin : "sessionId" ∈ ({["event"]} ∪ dom vs : gset string))
      by (rewrite H; set_solver).
    set_solver.
  - intros H. apply set_eq. intros k. set_solver.
Qed.

Lemma dom_with_session (vs : gmap string value) (sid : value) :
  dom vs ⊆ handshake_keys ->
  dom (<["sessionId" := sid]> vs) = handshake_keys <-> is_Some (vs !! "event").
Proof.
  intros Hsub. rewrite dom_insert_L, <- elem_of_dom. unfold handshake_keys in *.
  split.
  - intros H. assert (Hin : "event" ∈ ({["sessionId"]} ∪ dom vs : gset string))
      by (rewrite H; set_solver).
    set_solver.
  - intros H. apply set_eq. intros k. set_solver.
Qed.

Lemma merged_with_event (vs : gmap string value) (sid data gid : value) :
  dom vs ⊆ handshake_keys ->
  vs !! "sessionId" = Some sid ->
  <["op" := VStr "voiceUpdate"]> (<["guildId" := gid]> (<["event" := data]> vs)) =
  kwargs [("op", VStr "voiceUpdate"); ("guildId", gid);
          ("sessionId", sid); ("event", data)].
Proof.
  intros Hsub Hsid. unfold kwargs. simpl. do 2 f_equal.
  apply map_eq. intros k.
  destruct (decide (k = "event")) as [->|Hne1]; [by simplify_map_eq|].
  destruct (decide (k = "sessionId")) as [->|Hne2]; [by simplify_map_eq|].
  simplify_map_eq. apply not_elem_of_dom. intros Hin.
  apply Hsub in Hin. unfold handshake_keys in Hin. set_solver.
Qed.

Lemma merged_with_session (vs : gmap string value) (sid data gid : value) :
  dom vs ⊆ handshake_keys ->
  vs !! "event" = Some data ->
  <["op" := VStr "voiceUpdate"]> (<["guildId" := gid]> (<["sessionId" := sid]> vs)) =
  kwargs [("op", VStr "voiceUpdate"); ("guildId", gid);
          ("sessionId", sid); ("event", data)].
Proof.
  intros Hsub Hev. unfold kwargs. simpl. do 2 f_equal.
  apply map_eq. intros k.
  destruct (decide (k = "sessionId")) as [->|Hne1]; [by simplify_map_eq|].
  destruct (decide (k = "event")) as [->|Hne2]; [by simplify_map_eq|].
  simplify_map_eq. apply not_elem_of_dom. intros Hin.
  apply Hsub in Hin. unfold handshake_keys in Hin. set_solver.
Qed.

Lemma find_channel (ch : Z) (l : list Z) :
  In ch l -> List.find (Z.eqb ch) l = Some ch.
Proof.
  induction l as [|x l IH]; simpl; [tauto|].
  destruct (Z.eqb_spec ch x) as [->|Hne]; [reflexivity|].
  intros [->|Hin]; [congruence|auto].
Qed.

(** C1, as the code has it: every fragment submitted while the other
    fragment is stored sends one merged [voiceUpdate] through the current
    node, carrying the stored session token and event; a fragment
    submitted while the other one is missing sends nothing; a state
    update without a channel drops both fragments and sends nothing.
    Each submission dispatches by itself: a value submitted again
    dispatches again. *)
Theorem handshake_dispatch (w : World) (c : Z) :
  channel (self w) = Some c ->
  dom (_voice_state (self w)) ⊆ handshake_keys ->
  let vs := _voice_state (self w) in
  let n := node (self w) in
  let merged sid data :=
    kwargs [("op", VStr "voiceUpdate");
            ("guildId", VStr (str (g_id (guild (self w)))));
            ("sessionId", sid); ("event", data)] in
  (forall data,
     let w' := snd (on_voice_server_update transport data w) in
     _voice_state (self w') = <["event" := data]> vs
     /\ trace w' =
        trace w ++
          match vs !! "sessionId" with
          | Some sid =>
              [Sent n (merged sid data)
                 (transport (trace w) n (merged sid data))]
          | None => []
          end)
  /\ (forall sid ch,
        In ch (g_channels (guild (self w))) ->
        let w' := snd (on_voice_state_update transport sid (Some ch) w) in
        _voice_state (self w') = <["sessionId" := sid]> vs
        /\ trace w' =
           trace w ++
             match vs !! "event" with
             | Some data =>
                 [Sent n (merged sid data)
                    (transport (trace w) n (merged sid data))]
             | None => []
             end)
  /\ (forall sid,
        let w' := snd (on_voice_state_update transport sid None w) in
        _voice_state (self w') = ∅ /\ trace w' = trace w).
Proof.
  intros Hc Hsub vs n merged. open_world w. subst. subst vs n merged.
  repeat split; intros.
  - run_m. cases; reflexivity.
  - run_m. destruct (bool_decide _) eqn:Hdom.
    + apply bool_decide_eq_true in Hdom.
      apply dom_with_event in Hdom as [sid Hsid]; [|assumption].
      rewrite Hsid. simpl.
      rewrite (merged_with_event _ sid) by assumption.
      cases; reflexivity.
    + apply bool_decide_eq_false in Hdom.
      destruct (_voice_state0 !! "sessionId") eqn:Hsid.
      * exfalso. apply Hdom. apply dom_with_event; eauto.
      * simpl. symmetry. apply app_nil_r.
  - run_m. rewrite (find_channel _ _ H). simpl. cases; reflexivity.
  - run_m. rewrite (find_channel _ _ H). simpl.
    destruct (bool_decide _) eqn:Hdom.
    + apply bool_decide_eq_true in Hdom.
      apply dom_with_session in Hdom as [data Hev]; [|assumption].
      rewrite Hev. simpl.
      rewrite (merged_with_session _ sid data) by assumption.
      cases; reflexivity.
    + apply bool_decide_eq_false in Hdom.
      destruct (_voice_state0 !! "event") eqn:Hev.
      * exfalso. apply Hdom. apply dom_with_session; eauto.
      * simpl. symmetry. apply app_nil_r.
Qed.


(** The fragments map of a session never holds another key than the two
    fragments, so the hypothesis of [handshake_dispatch] holds in every
    state a session reaches. *)
Lemma exec_keeps_voice_state (c : call) :
  (forall data, c <> OnVoiceServerUpdate data) ->
  (forall sid ch, c <> OnVoiceStateUpdate sid ch) ->
  preserves (fun w => _voice_state (self w))
    (exec transport gateway clock get_best_node c).
Proof.
  intros H1 H2. destruct c; try (frame; fail).
  - exfalso. eapply H1. reflexivity.
  - exfalso. eapply H2. reflexivity.
Qed.

Lemma reachable_voice_state (w : World) :
  reachable transport gateway clock get_best_node w ->
  dom (_voice_state (self w)) ⊆ handshake_keys.
Proof.
  induction 1 as [me g c ns tr tk w Hinit | w c Hw IH].
  - unfold __init__ in Hinit.
    destruct (get_best_node ns None None); [|discriminate].
    injection Hinit as <-. simpl. set_solver.
  - destruct c;
      try (rewrite exec_keeps_voice_state; [exact IH | | ];
           intros; discriminate).
    + assert (H : _voice_state (self (snd (on_voice_server_update transport data w))) =
                  <["event" := data]> (_voice_state (self w))).
      { open_world w. run_m. cases; reflexivity. }
      simpl. rewrite H, dom_insert_L. unfold handshake_keys in *. set_solver.
    + assert (H : let vs := _voice_state (self (snd (on_voice_state_update transport session_id channel_id0 w))) in
                  vs = ∅ \/ vs = <["sessionId" := session_id]> (_voice_state (self w))).
      { open_world w. run_m. cases; auto. }
      simpl in *. destruct H as [-> | ->]; [set_solver|].
      rewrite dom_insert_L. unfold handshake_keys in *. set_solver.
Qed.


(** ** The failover coordinator *)

(** Choosing the target only flips the availability mark of the current
    node: the player, the registries, the outside and the clock stay. *)
Lemma change_node_target_frame (arg : option node_id) (w : World) :
  let w1 := snd (change_node_target get_best_node arg w) in
  self w1 = self w /\ trace w1 = trace w /\ ticks w1 = ticks w
  /\ forall n, players (nodes w1 n) = players (nodes w n).
Proof.
  open_world w. unfold change_node_target. run_m.
  cases; repeat split; try reflexivity; intros k;
    destruct (decide (node0 = k)) as [->|Hne];
    rewrite ?fn_lookup_insert, ?fn_lookup_insert_ne by assumption;
    reflexivity.
Qed.

Lemma change_node_target_explicit (n : node_id) (w : World) :
  change_node_target get_best_node (Some n) w =
  (if bool_decide (n = node (self w))
   then Raise (WavelinkException already_on_node) else Ok n, w).
Proof.
  open_world w. unfold change_node_target. run_m. cases; reflexivity.
Qed.

Lemma change_node_target_best (w : World) :
  let cur := node (self w) in
  let closing := <[cur := with_available false (nodes w cur)]> (nodes w) in
  fst (change_node_target get_best_node None w) =
  match get_best_node closing (region (nodes w cur)) (shard_id (nodes w cur)) with
  | Some n => Ok n
  | None => Raise (WavelinkException no_nodes_available)
  end.
Proof.
  open_world w. unfold change_node_target. run_m.
  rewrite fn_lookup_insert. simpl. cases; reflexivity.
Qed.

(** With a selector that respects the closing mark, the target is never
    the current node. *)
Lemma change_node_target_fresh (arg : option node_id) (w : World) (n : node_id) :
  respects_closing get_best_node ->
  fst (change_node_target get_best_node arg w) = Ok n ->
  n <> node (self w).
Proof.
  intros Hsel. destruct arg as [m|].
  - rewrite change_node_target_explicit. simpl.
    case_bool_decide; [discriminate|]. intros [= <-]. assumption.
  - rewrite change_node_target_best. simpl.
    destruct (get_best_node _ _ _) as [m|] eqn:Hbest; [|discriminate].
    intros [= <-] ->. apply Hsel in Hbest.
    rewrite fn_lookup_insert in Hbest. discriminate.
Qed.

(** What [change_node] does once the target is chosen. *)
Lemma change_node_run (arg : option node_id) (w : World) :
  change_node transport clock get_best_node arg w =
  match change_node_target get_best_node arg w with
  | (Raise e, w1) => (Raise e, w1)
  | (Ok new, w1) =>
      let old := node (self w) in
      let gid := g_id (guild (self w)) in
      match channel (self w) with
      | None => (Raise AttributeError, w1)
      | Some _ =>
          match players (nodes w1 old) !! gid with
          | None => (Raise KeyError, w1)
          | Some _ =>
              let w2 := detached old gid w1 in
              let ok := transport (trace w2) old (destroy_command gid) in
              let w3 := told old (destroy_command gid) ok w2 in
              if ok then
                change_node_replay transport clock (attached new gid w3)
              else (Raise SendError, w3)
          end
      end
  end.
Proof.
  pose proof (change_node_target_frame arg w) as (Hs & Ht & Hk & Hp).
  unfold change_node. unfold bind at 1.
  destruct (change_node_target get_best_node arg w) as [[new|e] w1];
    [|reflexivity].
  simpl in Hs, Ht, Hk, Hp. rewrite <- Hs.
  unfold detached, told, attached, destroy_command.
  open_world w1. run_m. cases; reflexivity.
Qed.


Lemma handshake_keys_nonempty (vs : gmap string value) :
  dom vs = handshake_keys -> vs <> ∅.
Proof.
  intros Hd ->. rewrite dom_empty_L in Hd. unfold handshake_keys in Hd.
  set_solver.
Qed.

(** The replay on the new node, when every command is delivered. *)
Lemma change_node_replay_ok (w w' : World) (t : Track) :
  _track (self w) = Some t ->
  change_node_replay transport clock w = (Ok tt, w') ->
  let p := self w in
  let n := node p in
  let gid := VStr (str (g_id (guild p))) in
  exists pos,
    position_at (clock (ticks w)) p = Ok pos
    /\ trace w' =
       trace w
       ++ (if bool_decide (dom (_voice_state p) = handshake_keys)
           then [Sent n (<["op" := VStr "voiceUpdate"]>
                           (<["guildId" := gid]> (_voice_state p))) true]
           else [])
       ++ [Sent n (kwargs [("op", VStr "play"); ("guildId", gid);
                           ("track", Track.id t);
                           ("startTime", VInt (int pos))]) true]
       ++ (if _paused p
           then [Sent n (kwargs [("op", VStr "pause"); ("guildId", gid);
                                 ("pause", VBool (_paused p))]) true]
           else [])
       ++ (if bool_decide (volume p <> 100)
           then [Sent n (kwargs [("op", VStr "volume"); ("guildId", gid);
                                 ("volume", VInt (volume p))]) true]
           else [])
    /\ self w' = set_last_update (VFloat (clock (Nat.pred (ticks w')))) p
    /\ ticks w' =
       S (if is_playing p && negb (_paused p) then S (ticks w) else ticks w).
Proof.
  intros Ht. open_world w. subst. intros Hrun.
  unfold change_node_replay, position, position_at, is_playing, is_paused,
    is_connected in *.
  revert Hrun. destruct _connected0, _paused0; run_m.
  all: cases; intros Hrun; try discriminate Hrun.
  all: try match goal with
           | H1 : bool_decide (?vs <> ∅) = false,
             H2 : bool_decide (dom ?vs = handshake_keys) = true |- _ =>
               exfalso; apply bool_decide_eq_false in H1;
               apply bool_decide_eq_true in H2; apply H1;
               apply handshake_keys_nonempty; assumption
           end.
  all: injection Hrun as <-; simpl.
  all: eexists; split; [reflexivity|].
  all: split; [rewrite <- ?app_assoc; reflexivity|].
  all: split; reflexivity.
Qed.


(** Whatever happens to it, the replay only talks to the node of the
    player: no registry is touched and the player stays on its node. *)
Lemma change_node_replay_frame (w : World) :
  let w' := snd (change_node_replay transport clock w) in
  nodes w' = nodes w
  /\ node (self w') = node (self w)
  /\ exists rest,
       trace w' = trace w ++ rest /\ forallb is_sent rest = true.
Proof.
  split; [|split].
  - revert w. change (preserves nodes (change_node_replay transport clock)).
    frame.
  - revert w.
    change (preserves (fun w => node (self w))
              (change_node_replay transport clock)).
    frame.
  - revert w. change (sends_only (change_node_replay transport clock)).
    quiet.
Qed.


(** C5: [change_node] to the node the player is on raises, and so does
    [change_node] without a node when the selector finds none; the code
    raises [WavelinkException] for both and tells them apart by the
    message.  Neither refusal sends a command or writes the player (its
    [node] included) or a registry. *)
Theorem change_node_refusals (w : World) :
  change_node transport clock get_best_node (Some (node (self w))) w =
    (Raise (WavelinkException already_on_node), w)
  /\ (let cur := node (self w) in
      let closing := <[cur := with_available false (nodes w cur)]> (nodes w) in
      get_best_node closing (region (nodes w cur)) (shard_id (nodes w cur))
        = None ->
      let r := change_node transport clock get_best_node None w in
      fst r = Raise (WavelinkException no_nodes_available)
      /\ self (snd r) = self w
      /\ trace (snd r) = trace w
      /\ forall n, registry (snd r) n = registry w n).
Proof.
  split.
  - rewrite change_node_run, change_node_target_explicit.
    rewrite bool_decide_eq_true_2 by reflexivity. reflexivity.
  - intros cur closing Hnone r. subst r.
    pose proof (change_node_target_frame None w) as (Hs & Ht & _ & Hp).
    pose proof (change_node_target_best w) as Hbest.
    simpl in Hbest. fold cur closing in Hbest. rewrite Hnone in Hbest.
    rewrite change_node_run.
    destruct (change_node_target get_best_node None w) as [[new|e] w1];
      simpl in *; [discriminate|].
    injection Hbest as ->. auto.
Qed.

(** C7, as the code has it: the [destroy] command goes to the old node
    right after the session has left its registry, and nothing catches
    what the send raises.  When it raises, [change_node] raises the same
    to its caller: the player is as before, still on the old node; the
    old registry has lost the session; no other registry has changed, so
    the new node has not received it; nothing is replayed. *)
Theorem change_node_destroy_raises (arg : option node_id) (w : World)
    (new : node_id) (c : Z) (p : player_ref) :
  let old := node (self w) in
  let gid := g_id (guild (self w)) in
  fst (change_node_target get_best_node arg w) = Ok new ->
  channel (self w) = Some c ->
  registry w old !! gid = Some p ->
  transport (trace w ++ [Deleted old gid]) old (destroy_command gid) = false ->
  let r := change_node transport clock get_best_node arg w in
  fst r = Raise SendError
  /\ self (snd r) = self w
  /\ trace (snd r) =
     trace w ++ [Deleted old gid; Sent old (destroy_command gid) false]
  /\ registry (snd r) old !! gid = None
  /\ forall n, n <> old -> registry (snd r) n = registry w n.
Proof.
  intros old gid Htarget Hc Hreg Hfail r. subst r.
  pose proof (change_node_target_frame arg w) as (Hs & Ht & _ & Hp).
  rewrite change_node_run.
  destruct (change_node_target get_best_node arg w) as [[new'|e] w1];
    simpl in *; [|discriminate].
  rewrite Hc. fold old gid. unfold registry in Hreg.
  rewrite Hp, Hreg. unfold detached at 1. simpl. rewrite Ht, Hfail. simpl.
  rewrite Hs, Ht. unfold registry. simpl.
  repeat split.
  - rewrite <- app_assoc. reflexivity.
  - rewrite fn_lookup_insert. simpl. apply lookup_delete_eq.
  - intros n Hn. rewrite fn_lookup_insert_ne by congruence. apply Hp.
Qed.


Lemma registry_after_sends (evs : list event) reg :
  forallb is_sent evs = true -> registry_after evs reg = reg.
Proof.
  revert reg. induction evs as [|e evs IH]; intros reg H; [reflexivity|].
  simpl in H. apply andb_prop in H as [He Hevs].
  destruct e; try discriminate. simpl. auto.
Qed.

Lemma forallb_take {A} (f : A -> bool) (k : nat) (l : list A) :
  forallb f l = true -> forallb f (take k l) = true.
Proof.
  revert k. induction l as [|x l IH]; intros [|k] H; simpl in *; auto.
  apply andb_prop in H as [-> Hl]. simpl. auto.
Qed.

(** A successful [change_node], taken apart. *)
Lemma change_node_ok (arg : option node_id) (w w' : World) :
  change_node transport clock get_best_node arg w = (Ok tt, w') ->
  let old := node (self w) in
  let gid := g_id (guild (self w)) in
  exists new w1 c q,
    change_node_target get_best_node arg w = (Ok new, w1)
    /\ channel (self w) = Some c
    /\ registry w old !! gid = Some q
    /\ change_node_replay transport clock
         (attached new gid
            (told old (destroy_command gid) true (detached old gid w1))) =
       (Ok tt, w').
Proof.
  intros Hrun old gid. rewrite change_node_run in Hrun.
  pose proof (change_node_target_frame arg w) as (Hs & Ht & _ & Hp).
  destruct (change_node_target get_best_node arg w) as [[new|e] w1];
    [|discriminate].
  simpl in *. fold old gid in Hrun.
  destruct (channel (self w)) as [c|] eqn:Hc; [|discriminate].
  destruct (players (nodes w1 old) !! gid) as [q|] eqn:Hq; [|discriminate].
  destruct (transport _ _ _) eqn:Hok; [|discriminate].
  exists new, w1, c, q. unfold registry. rewrite <- Hp. auto.
Qed.

(** C6: after a successful [change_node] the registry of the new node
    maps the group id to the session and the registry of the old node has
    lost that key.  The only registry writes of the call are the removal
    from the old node, then, after the [destroy] command, the insertion
    in the new node; the registries are what these two writes make of
    them; and a session that was registered on no node but its own is, at
    every moment of the call, registered on one node at most. *)
Theorem change_node_registry (arg : option node_id) (w w' : World) :
  respects_closing get_best_node ->
  change_node transport clock get_best_node arg w = (Ok tt, w') ->
  let old := node (self w) in
  let new := node (self w') in
  let gid := g_id (guild (self w)) in
  let p := me (self w) in
  new <> old
  /\ registry w' new !! gid = Some p
  /\ registry w' old !! gid = None
  /\ exists rest,
       let evs := Deleted old gid :: Sent old (destroy_command gid) true
                  :: Stored new gid p :: rest in
       trace w' = trace w ++ evs
       /\ forallb is_sent rest = true
       /\ (forall n, registry w' n = registry_after evs (registry w) n)
       /\ ((forall n, registry w n !! gid = Some p -> n = old) ->
           forall k,
             exclusive (registry_after (take k evs) (registry w)) gid p).
Proof.
  intros Hsel Hrun old new gid p.
  destruct (change_node_ok arg w w' Hrun) as (nw & w1 & c & q & Htg & Hc & Hq & Hrep).
  fold old gid in Hq, Hrep.
  pose proof (change_node_target_frame arg w) as (Hs & Ht & _ & Hp).
  pose proof (change_node_target_fresh arg w nw Hsel) as Hfresh.
  rewrite Htg in Hs, Ht, Hp, Hfresh. simpl in Hs, Ht, Hp, Hfresh.
  specialize (Hfresh eq_refl). fold old in Hfresh.
  pose proof (change_node_replay_frame
                (attached nw gid
                   (told old (destroy_command gid) true (detached old gid w1))))
    as (Hn & Hnode & rest & Htr & Hrest).
  rewrite Hrep in Hn, Hnode, Htr. simpl in Hn, Hnode, Htr.
  rewrite Hs in Hn, Htr. rewrite Ht in Htr. fold p in Hn, Htr.
  assert (Hnew : new = nw) by exact Hnode. rewrite Hnew. clear Hnew new.
  assert (Hreg : forall n, registry w' n =
            <[nw := <[gid := p]> (<[old := delete gid (registry w old)]> (registry w) nw)]>
              (<[old := delete gid (registry w old)]> (registry w)) n).
  { intros n. unfold registry. rewrite Hn.
    destruct (decide (nw = n)) as [<-|Hne1].
    - rewrite !fn_lookup_insert. simpl.
      rewrite !fn_lookup_insert_ne by congruence. rewrite Hp. reflexivity.
    - rewrite !(fn_lookup_insert_ne _ nw) by assumption.
      destruct (decide (old = n)) as [<-|Hne2].
      + rewrite !fn_lookup_insert. simpl. rewrite Hp. reflexivity.
      + rewrite !fn_lookup_insert_ne by assumption. apply Hp. }
  split; [exact Hfresh|].
  split; [rewrite Hreg, fn_lookup_insert; apply lookup_insert_eq|].
  split.
  { rewrite Hreg, fn_lookup_insert_ne, fn_lookup_insert by assumption.
    apply lookup_delete_eq. }
  exists rest. simpl.
  split; [rewrite Htr, <- !app_assoc; reflexivity|].
  split; [exact Hrest|].
  split.
  { intros n. rewrite registry_after_sends by exact Hrest. apply Hreg. }
  intros Hown k n m.
  assert (Hgone : forall x,
            <[old := delete gid (registry w old)]> (registry w) x !! gid <> Some p).
  { intros x Hx. destruct (decide (old = x)) as [<-|Hne].
    - rewrite fn_lookup_insert, lookup_delete_eq in Hx. discriminate.
    - rewrite fn_lookup_insert_ne in Hx by assumption.
      apply Hown in Hx. congruence. }
  destruct k as [|[|[|k]]]; simpl.
  - intros H1 H2. rewrite (Hown n H1), (Hown m H2). reflexivity.
  - intros H1. destruct (Hgone n H1).
  - intros H1. destruct (Hgone n H1).
  - rewrite registry_after_sends by (apply forallb_take; exact Hrest).
    intros H1 H2.
    assert (Hat : forall x,
              <[nw := <[gid := p]> (<[old := delete gid (registry w old)]> (registry w) nw)]>
                (<[old := delete gid (registry w old)]> (registry w)) x !! gid = Some p ->
              x = nw).
    { intros x Hx. destruct (decide (nw = x)) as [<-|Hne]; [reflexivity|].
      rewrite fn_lookup_insert_ne in Hx by assumption. destruct (Hgone x Hx). }
    rewrite (Hat n H1), (Hat m H2). reflexivity.
Qed.


Lemma position_at_set_node (now : Q) (n : node_id) (p : Player) :
  position_at now (set_node n p) = position_at now p.
Proof. destruct p. reflexivity. Qed.

(** C4, as the code has it: a successful [change_node] of a session with
    a track sends to the new node, after the registry has been handed
    over and in this order: the merged voice update when both fragments
    are stored; a [play] command whose [startTime] is the position read
    at that moment cut to an integer by [int], that is truncated toward
    zero, not rounded; a [pause] command carrying [_paused] when it is
    true; a [volume] command when the volume is not 100.  [last_update]
    ends as the last clock reading of the call, taken after the [play]
    command. *)
Theorem change_node_replays (arg : option node_id) (w w' : World)
    (t : Track) :
  change_node transport clock get_best_node arg w = (Ok tt, w') ->
  _track (self w) = Some t ->
  let p := self w in
  let old := node p in
  let new := node (self w') in
  let gid := VStr (str (g_id (guild p))) in
  exists pos,
    position_at (clock (ticks w)) p = Ok pos
    /\ trace w' =
       trace w
       ++ [Deleted old (g_id (guild p));
           Sent old (destroy_command (g_id (guild p))) true;
           Stored new (g_id (guild p)) (me p)]
       ++ (if bool_decide (dom (_voice_state p) = handshake_keys)
           then [Sent new (<["op" := VStr "voiceUpdate"]>
                             (<["guildId" := gid]> (_voice_state p))) true]
           else [])
       ++ [Sent new (kwargs [("op", VStr "play"); ("guildId", gid);
                             ("track", Track.id t);
                             ("startTime", VInt (int pos))]) true]
       ++ (if _paused p
           then [Sent new (kwargs [("op", VStr "pause"); ("guildId", gid);
                                   ("pause", VBool (_paused p))]) true]
           else [])
       ++ (if bool_decide (volume p <> 100)
           then [Sent new (kwargs [("op", VStr "volume"); ("guildId", gid);
                                   ("volume", VInt (volume p))]) true]
           else [])
    /\ last_update (self w') = VFloat (clock (Nat.pred (ticks w')))
    /\ (ticks w < ticks w')%nat.
Proof.
  intros Hrun Htrack p old new gid.
  destruct (change_node_ok arg w w' Hrun) as (nw & w1 & c & q & Htg & Hc & Hq & Hrep).
  pose proof (change_node_target_frame arg w) as (Hs & Ht & Hk & Hp).
  rewrite Htg in Hs, Ht, Hk, Hp. simpl in Hs, Ht, Hk, Hp.
  fold p old in Hrep.
  assert (Htrack' :
            _track (self (attached nw (g_id (guild p))
                            (told old (destroy_command (g_id (guild p))) true
                               (detached old (g_id (guild p)) w1)))) = Some t)
    by (simpl; rewrite Hs; destruct (self w); exact Htrack).
  destruct (change_node_replay_ok _ w' t Htrack' Hrep)
    as (pos & Hpos & Htr & Hself & Hticks).
  simpl in Hpos, Htr, Hself, Hticks. rewrite Hs in Hpos, Htr, Hself.
  rewrite Hk in Hpos, Hticks. rewrite Ht in Htr.
  rewrite position_at_set_node in Hpos. fold p in Hpos, Htr, Hself.
  assert (Hnew : new = nw) by (subst new; rewrite Hself; destruct p; reflexivity).
  exists pos. split; [exact Hpos|]. rewrite Hnew.
  split.
  - rewrite Htr. destruct p. simpl. rewrite <- !app_assoc. reflexivity.
  - split; [rewrite Hself; destruct p; reflexivity|].
    rewrite Hticks. destruct (_ && _); lia.
Qed.


(** ** Further properties of the playback controller *)


(** X6: [stop] on a track that cannot be printed: the command goes out, the
    log line raises [TypeError], and the track stays loaded. *)
Theorem stop_keeps_unprintable_track (w : World) (c : Z) (t : Track) :
  channel (self w) = Some c ->
  _track (self w) = Some t ->
  Track.__str__ t = Raise TypeError ->
  let data := kwargs [("op", VStr "stop");
                      ("guildId", VStr (str (g_id (guild (self w)))))] in
  transport (trace w) (node (self w)) data = true ->
  stop transport w = (Raise TypeError, told (node (self w)) data true w).
Proof.
  intros Hc Ht Hstr data Hok. subst data. open_world w. subst.
  unfold told. run_m. unfold kwargs in Hok. simpl in Hok.
  rewrite Hok. simpl. rewrite Hstr. reflexivity.
Qed.

Lemma position_told n data ok (w : World) :
  fst (position clock (told n data ok w)) = fst (position clock w).
Proof.
  destruct (position_run w) as (-> & _).
  destruct (position_run (told n data ok w)) as (-> & _). reflexivity.
Qed.

(** X7: [seek] sends one [seek] command and writes nothing: the timing
    fields wait for the next report of the node, so the position read
    right after a seek is the one before it. *)
Theorem seek_writes_nothing (pos : Z) (w : World) (c : Z) :
  channel (self w) = Some c ->
  let data := kwargs [("op", VStr "seek");
                      ("guildId", VStr (str (g_id (guild (self w)))));
                      ("position", VInt pos)] in
  let ok := transport (trace w) (node (self w)) data in
  seek transport pos w =
    (if ok then Ok tt else Raise SendError, told (node (self w)) data ok w)
  /\ fst (position clock (snd (seek transport pos w))) =
     fst (position clock w).
Proof.
  intros Hc data ok. subst data ok.
  assert (H : seek transport pos w =
              (if transport (trace w) (node (self w))
                    (kwargs [("op", VStr "seek");
                             ("guildId", VStr (str (g_id (guild (self w)))));
                             ("position", VInt pos)])
               then Ok tt else Raise SendError,
               told (node (self w))
                 (kwargs [("op", VStr "seek");
                          ("guildId", VStr (str (g_id (guild (self w)))));
                          ("position", VInt pos)])
                 (transport (trace w) (node (self w))
                    (kwargs [("op", VStr "seek");
                             ("guildId", VStr (str (g_id (guild (self w)))));
                             ("position", VInt pos)])) w)).
  { open_world w. subst. unfold told. run_m. cases; reflexivity. }
  split; [exact H|]. rewrite H. exact (position_told _ _ _ _).
Qed.

(** X8: The connection flag follows the gateway: [connect] announces the
    channel and sets the flag once the call has returned, [disconnect]
    announces [None] and clears it once the call has returned; a call
    that raises leaves the flag as it was. *)
Theorem connect_disconnect_flag (w : World) (c : Z) :
  channel (self w) = Some c ->
  let gid := g_id (guild (self w)) in
  (let ok := gateway (trace w) gid (Some (str c)) in
   connect gateway w =
     (if ok then Ok tt else Raise SendError,
      mkWorld (if ok then set_connected true (self w) else self w) (nodes w)
        (trace w ++ [VoiceState gid (Some (str c)) ok]) (ticks w)))
  /\ (let ok := gateway (trace w) gid None in
      disconnect gateway w =
        (if ok then Ok tt else Raise SendError,
         mkWorld (if ok then set_connected false (self w) else self w)
           (nodes w) (trace w ++ [VoiceState gid None ok]) (ticks w))).
Proof.
  intros Hc gid. subst gid. open_world w. subst.
  split; run_m; cases; reflexivity.
Qed.


(** X9: A terminal event drops the track and nothing else: the session stops
    playing, its position reads 0, and the pause flag, the volume, the
    timing fields and the handshake fragments survive; nothing is sent,
    and the same event once more changes nothing.  Any other event
    changes nothing at all. *)
Theorem hook_drops_track_only (ev : wl_event) (w : World) :
  let w' := snd (hook ev w) in
  fst (hook ev w) = Ok tt
  /\ self w' = (if terminal ev then set_track None (self w) else self w)
  /\ nodes w' = nodes w /\ trace w' = trace w /\ ticks w' = ticks w
  /\ (terminal ev = true ->
      is_playing (self w') = false
      /\ position clock w' = (Ok 0%Q, w')
      /\ hook ev w' = (Ok tt, w')).
Proof.
  open_world w. destruct ev; simpl; repeat split; try discriminate.
  all: unfold position, is_playing; run_m;
    rewrite andb_false_r; reflexivity.
Qed.

(** X10: A report of the node: without the key [state] the call raises
    [KeyError] and changes nothing; otherwise the clock is read once,
    [last_update] is that reading, [last_position] and
    [position_timestamp] are the reported [position] and [time], 0 where
    the report lacks them; nothing is sent. *)
Theorem update_state_stores (state : gmap string (gmap string value))
    (w : World) :
  update_state clock state w =
  match state !! "state" with
  | None => (Raise KeyError, w)
  | Some st =>
      (Ok tt,
       mkWorld
         (set_position_timestamp (default (VInt 0) (st !! "time"))
            (set_last_position (default (VInt 0) (st !! "position"))
               (set_last_update (VFloat (clock (ticks w))) (self w))))
         (nodes w) (trace w) (S (ticks w)))
  end.
Proof.
  open_world w. unfold update_state.
  destruct (state !! "state"); reflexivity.
Qed.

(** X11: From a report to the next read: a connected session that is playing
    and not paused reads, after a report of position [pos0], that
    position plus the time between the two clock readings, as long as
    this stays within the duration [d] of the track. *)
Theorem position_after_report (state : gmap string (gmap string value))
    (st : gmap string value) (w : World) (t : Track) (pos0 d : Q)
    (v : value) :
  state !! "state" = Some st ->
  st !! "position" = Some v ->
  as_num v = Some pos0 ->
  _connected (self w) = true ->
  _paused (self w) = false ->
  _track (self w) = Some t ->
  as_num (Track.duration t) = Some d ->
  let t0 := clock (ticks w) in
  let t1 := clock (S (ticks w)) in
  (pos0 + (t1 - t0) <= d)%Q ->
  exists q,
    fst (position clock (snd (update_state clock state w))) = Ok q
    /\ (q == pos0 + (t1 - t0))%Q.
Proof.
  intros Hst Hpos Hnum Hc Hp Ht Hd t0 t1 Hle. subst t0 t1.
  assert (Hrun : snd (update_state clock state w) =
                 mkWorld
                   (set_position_timestamp (default (VInt 0) (st !! "time"))
                      (set_last_position (default (VInt 0) (st !! "position"))
                         (set_last_update (VFloat (clock (ticks w))) (self w))))
                   (nodes w) (trace w) (S (ticks w)))
    by (destruct w; unfold update_state; rewrite Hst; reflexivity).
  rewrite Hrun.
  match goal with
  | |- context [position clock ?w1] =>
      destruct (position_run w1) as (-> & _)
  end.
  open_world w. subst. unfold position_at, is_playing, is_connected, is_paused.
  simpl. rewrite Hpos. simpl. rewrite Hnum, Hd.
  destruct (Qlt_le_dec _ _) as [Hlt|Hge].
  - exfalso. apply (Qlt_not_le _ _ Hlt Hle).
  - eexists. split; [reflexivity|]. apply Q.min_l. exact Hle.
Qed.


(** ** Further properties of the position *)

(** X12: A paused session, and one that is not playing, reads its position
    without looking at the clock: the read changes nothing at all, and
    any other clock gives the same answer. *)
Theorem position_ignores_clock_when_paused (w : World) (other : nat -> Q) :
  _paused (self w) = true \/ is_playing (self w) = false ->
  snd (position clock w) = w
  /\ position other w = position clock w.
Proof.
  intros H. open_world w. unfold position, is_paused. run_m.
  destruct H as [-> | ->]; simpl; [|split; reflexivity].
  destruct (negb _); split; reflexivity.
Qed.

(** X13: While it plays, the position does not go back: of two reads of the
    same fields, the later clock reading gives the larger position, as
    long as the track has not run out. *)
Theorem position_monotone (p : Player) (t : Track) (lu lp d now1 now2 : Q) :
  _connected p = true -> _paused p = false -> _track p = Some t ->
  as_num (last_update p) = Some lu ->
  as_num (last_position p) = Some lp ->
  as_num (Track.duration t) = Some d ->
  (now1 <= now2)%Q ->
  (lp + (now2 - lu) <= d)%Q ->
  exists q1 q2,
    position_at now1 p = Ok q1 /\ position_at now2 p = Ok q2
    /\ (q1 <= q2)%Q.
Proof.
  intros Hc Hp Ht Hlu Hlp Hd Hnow Hle.
  unfold position_at, is_playing, is_connected, is_paused.
  rewrite Hc, Hp, Ht, Hlu, Hlp, Hd. simpl.
  assert (Hle1 : (lp + (now1 - lu) <= d)%Q) by lra.
  destruct (Qlt_le_dec d (lp + (now1 - lu))) as [Hlt|_];
    [exfalso; apply (Qlt_not_le _ _ Hlt Hle1)|].
  destruct (Qlt_le_dec d (lp + (now2 - lu))) as [Hlt|_];
    [exfalso; apply (Qlt_not_le _ _ Hlt Hle)|].
  eexists. eexists. split; [reflexivity|]. split; [reflexivity|].
  rewrite !Q.min_l by assumption. lra.
Qed.

(** Once the stored position plus the elapsed time passes the duration,
    the read falls back to 0. *)
Lemma position_zero_past_end (p : Player) (t : Track)
    (lu lp d now : Q) :
  _connected p = true -> _paused p = false -> _track p = Some t ->
  as_num (last_update p) = Some lu ->
  as_num (last_position p) = Some lp ->
  as_num (Track.duration t) = Some d ->
  (d < lp + (now - lu))%Q ->
  position_at now p = Ok 0%Q.
Proof.
  intros Hc Hp Ht Hlu Hlp Hd Hlt.
  unfold position_at, is_playing, is_connected, is_paused.
  rewrite Hc, Hp, Ht, Hlu, Hlp, Hd. simpl.
  destruct (Qlt_le_dec d (lp + (now - lu))) as [_|Hle]; [reflexivity|].
  exfalso. apply (Qlt_not_le _ _ Hlt Hle).
Qed.

(** X14: No read exceeds the duration of the loaded track. *)
Theorem position_at_most_duration (p : Player) (t : Track) (d now q : Q) :
  _track p = Some t ->
  as_num (Track.duration t) = Some d ->
  (0 <= d)%Q ->
  position_at now p = Ok q ->
  (q <= d)%Q.
Proof.
  intros Ht Hd Hpos. unfold position_at. rewrite Ht, Hd.
  destruct (negb (is_playing p)); [intros [= <-]; exact Hpos|].
  destruct (is_paused p).
  - destruct (as_num (last_position p)); [|discriminate].
    intros [= <-]. apply Q.le_min_r.
  - destruct (as_num (last_update p)); [|discriminate].
    destruct (as_num (last_position p)); [|discriminate].
    destruct (Qlt_le_dec _ _); intros [= <-]; [exact Hpos|apply Q.le_min_r].
Qed.

(** X15: Right after [play], before the node has reported anything, the
    timing fields are 0 and the read interpolates from the epoch: a
    connected session reads 0 whenever the clock reading exceeds the
    duration of the track. *)
Theorem position_after_play (t : Track) (start end_ : Z) (w : World)
    (c : Z) (d : Q) :
  channel (self w) = Some c ->
  _connected (self w) = true ->
  as_num (Track.duration t) = Some d ->
  let w' := snd (play transport t true start end_ w) in
  (d < clock (ticks w'))%Q ->
  fst (position clock w') = Ok 0%Q.
Proof.
  intros Hc Hcon Hd w' Hlt. subst w'.
  rewrite (play_run t true start end_ w c Hc eq_refl) in *.
  match goal with
  | |- context [position clock ?w1] =>
      destruct (position_run w1) as (-> & _)
  end.
  simpl in *. open_world w. subst. simpl in *.
  apply (position_zero_past_end _ t 0 0 d);
    try reflexivity; try assumption.
  lra.
Qed.


(** ** The life of a session *)

(** X16: Creating a player: without a node from the selector the constructor
    raises [ZeroConnectedNodes] and registers nothing; with one, the
    player is entered in that node's registry under the group id,
    replacing whatever was there, no other registry changes, and the
    player starts disconnected, unpaused, at volume 100, with no track
    and no handshake fragment. *)
Theorem init_registers (me : player_ref) (g : Guild) (c : Z)
    (ns : node_id -> Node) (tr : list event) (tk : nat) :
  match get_best_node ns None None with
  | None =>
      __init__ get_best_node me g c ns tr tk =
      Raise (ZeroConnectedNodes no_node_to_connect)
  | Some n =>
      exists w,
        __init__ get_best_node me g c ns tr tk = Ok w
        /\ node (self w) = n
        /\ registry w n = <[g_id g := me]> (players (ns n))
        /\ (forall m, m <> n -> nodes w m = ns m)
        /\ trace w = tr ++ [Stored n (g_id g) me]
        /\ channel (self w) = Some c
        /\ _connected (self w) = false /\ _paused (self w) = false
        /\ volume (self w) = 100 /\ _track (self w) = None
        /\ _voice_state (self w) = ∅
        /\ fst (position clock w) = Ok 0%Q
  end.
Proof.
  unfold __init__. destruct (get_best_node ns None None) as [n|];
    [|reflexivity].
  eexists. split; [reflexivity|]. simpl. unfold registry. simpl.
  rewrite fn_lookup_insert. repeat split.
  intros m Hm. apply fn_lookup_insert_ne. congruence.
Qed.

(** X17: A state update that names a channel the guild does not list: the
    session token is stored, the player is left without a channel, the
    call raises [AttributeError] and nothing is sent. *)
Theorem voice_state_update_unknown_channel (sid : value) (ch : Z)
    (w : World) (c : Z) :
  channel (self w) = Some c ->
  ~ In ch (g_channels (guild (self w))) ->
  on_voice_state_update transport sid (Some ch) w =
  (Raise AttributeError,
   mkWorld
     (set_channel None
        (set_voice_state (<["sessionId" := sid]> (_voice_state (self w)))
           (self w)))
     (nodes w) (trace w) (ticks w)).
Proof.
  intros Hc Hnot. open_world w. subst.
  assert (Hfind : List.find (Z.eqb ch) (g_channels guild0) = None).
  { destruct (List.find (Z.eqb ch) (g_channels guild0)) as [x|] eqn:Hf;
      [|reflexivity].
    apply find_some in Hf as [Hin Heq]. apply Z.eqb_eq in Heq. subst x.
    destruct (Hnot Hin). }
  run_m. rewrite Hfind. reflexivity.
Qed.



(** X19: Only [change_node] moves a session: every other call leaves the
    node of the player, every registry and every availability mark as
    they were. *)
Theorem only_change_node_moves (c : call) (w : World) :
  (forall n, c <> ChangeNode n) ->
  let w' := snd (exec transport gateway clock get_best_node c w) in
  nodes w' = nodes w /\ node (self w') = node (self w)
  /\ me (self w') = me (self w) /\ guild (self w') = guild (self w).
Proof.
  intros Hc w'. subst w'.
  assert (H1 : preserves nodes (exec transport gateway clock get_best_node c))
    by (destruct c; try (frame; fail); exfalso; eapply Hc; reflexivity).
  assert (H2 : preserves (fun w => node (self w))
                 (exec transport gateway clock get_best_node c))
    by (destruct c; try (frame; fail); exfalso; eapply Hc; reflexivity).
  assert (H3 : preserves (fun w => me (self w))
                 (exec transport gateway clock get_best_node c))
    by (destruct c; frame).
  assert (H4 : preserves (fun w => guild (self w))
                 (exec transport gateway clock get_best_node c))
    by (destruct c; frame).
  repeat split; [apply H1|apply H2|apply H3|apply H4].
Qed.

Lemma maintains_bind {A B} (P : Player -> Prop) (m : M A) (k : A -> M B) :
  maintains P m -> (forall a, maintains P (k a)) -> maintains P (bind m k).
Proof.
  intros Hm Hk w Hw. unfold bind. specialize (Hm w Hw).
  destruct (m w) as [[a|e] w1]; simpl in *; [apply Hk|]; exact Hm.
Qed.

Lemma maintains_quiet {A} (P : Player -> Prop) (m : M A) :
  preserves self m -> maintains P m.
Proof. intros H w Hw. rewrite H. exact Hw. Qed.

Lemma maintains_update (P : Player -> Prop) (h : Player -> Player) :
  (forall p, P p -> P (h p)) -> maintains P (update h).
Proof. intros H w Hw. apply H. exact Hw. Qed.

Ltac maintain_step :=
  match goal with
  | |- maintains _ (bind _ _) => apply maintains_bind; [|intros]
  | |- maintains _ (update _) =>
      apply maintains_update; intros [] ?; simpl in *;
      unfold clocked in *; simpl in *; eauto
  | |- maintains _ (if ?b then _ else _) => destruct b
  | |- maintains _ (match ?x with _ => _ end) => destruct x
  | |- maintains _ _ => apply maintains_quiet; intros ?; reflexivity
  end.

Ltac maintain := unfold_methods; repeat maintain_step.

(** X20: While a track is loaded, [last_update] holds a number, in every
    state a session reaches: [play] sets it to 0 before it stores the
    track, and the reports of the node and the changeover write clock
    readings.  So the subtraction in [position] never meets [None]. *)
Theorem reachable_clocked (w : World) :
  reachable transport gateway clock get_best_node w -> clocked (self w).
Proof.
  induction 1 as [me g c ns tr tk w Hinit | w c Hw IH].
  - unfold __init__ in Hinit.
    destruct (get_best_node ns None None); [|discriminate].
    injection Hinit as <-. intros Hno. destruct Hno. reflexivity.
  - revert w Hw IH.
    assert (H : maintains clocked
                  (exec transport gateway clock get_best_node c)).
    { destruct c; simpl; try (maintain; fail).
      intros w Hw. open_world w. run_m.
      cases; unfold clocked in *; simpl in *; eauto. }
    intros w _ IH. apply H. exact IH.
Qed.


(** ** Further properties of the changeover *)

(** X21: A session that is not in the registry of its node cannot change
    node: [del] raises [KeyError] before anything is sent, and the
    player and the registries stay as they were. *)
Theorem change_node_unregistered (arg : option node_id) (w : World)
    (new : node_id) (c : Z) :
  let old := node (self w) in
  let gid := g_id (guild (self w)) in
  fst (change_node_target get_best_node arg w) = Ok new ->
  channel (self w) = Some c ->
  registry w old !! gid = None ->
  let r := change_node transport clock get_best_node arg w in
  fst r = Raise KeyError
  /\ self (snd r) = self w
  /\ trace (snd r) = trace w
  /\ forall n, registry (snd r) n = registry w n.
Proof.
  intros old gid Htarget Hc Hreg r. subst r.
  pose proof (change_node_target_frame arg w) as (Hs & Ht & _ & Hp).
  rewrite change_node_run.
  destruct (change_node_target get_best_node arg w) as [[new'|e] w1];
    simpl in *; [|discriminate].
  rewrite Hc. fold old gid. unfold registry in *. rewrite Hp, Hreg. simpl.
  auto.
Qed.

(** X22: A changeover that failed at the [destroy] command cannot be tried
    again: the session has left the registry of its node, so the next
    [change_node] to any other node raises [KeyError]. *)
Theorem change_node_no_retry (w : World) (n1 n2 : node_id) (c : Z)
    (p : player_ref) :
  let old := node (self w) in
  let gid := g_id (guild (self w)) in
  n1 <> old -> n2 <> old ->
  channel (self w) = Some c ->
  registry w old !! gid = Some p ->
  transport (trace w ++ [Deleted old gid]) old (destroy_command gid) = false ->
  let w1 := snd (change_node transport clock get_best_node (Some n1) w) in
  fst (change_node transport clock get_best_node (Some n2) w1)
  = Raise KeyError.
Proof.
  intros old gid Hn1 Hn2 Hc Hreg Hfail w1.
  assert (Hw1 : w1 = told old (destroy_command gid) false (detached old gid w)).
  { subst w1. rewrite change_node_run, change_node_target_explicit.
    rewrite bool_decide_eq_false_2 by assumption.
    cbv beta iota zeta. rewrite Hc. fold old gid.
    unfold registry in Hreg. rewrite Hreg.
    replace (trace (detached old gid w)) with (trace w ++ [Deleted old gid])
      by reflexivity.
    rewrite Hfail. reflexivity. }
  rewrite Hw1, change_node_run, change_node_target_explicit.
  replace (node (self (told old (destroy_command gid) false
                         (detached old gid w)))) with old by reflexivity.
  rewrite bool_decide_eq_false_2 by assumption.
  cbv beta iota zeta.
  replace (channel (self (told old (destroy_command gid) false
                            (detached old gid w)))) with (channel (self w))
    by reflexivity.
  rewrite Hc.
  replace (players (nodes (told old (destroy_command gid) false
                             (detached old gid w)) old)
             !! g_id (guild (self (told old (destroy_command gid) false
                                     (detached old gid w)))))
    with (@None player_ref); [reflexivity|].
  simpl. rewrite fn_lookup_insert. simpl. symmetry. apply lookup_delete_eq.
Qed.

(** The replay on the new node for a session without a track, when
    every command is delivered. *)
Lemma change_node_replay_idle (w w' : World) :
  _track (self w) = None ->
  change_node_replay transport clock w = (Ok tt, w') ->
  let p := self w in
  let n := node p in
  let gid := VStr (str (g_id (guild p))) in
  trace w' =
    trace w
    ++ (if bool_decide (dom (_voice_state p) = handshake_keys)
        then [Sent n (<["op" := VStr "voiceUpdate"]>
                        (<["guildId" := gid]> (_voice_state p))) true]
        else [])
    ++ (if bool_decide (volume p <> 100)
        then [Sent n (kwargs [("op", VStr "volume"); ("guildId", gid);
                              ("volume", VInt (volume p))]) true]
        else [])
  /\ self w' = p /\ ticks w' = ticks w.
Proof.
  intros Ht. open_world w. subst. intros Hrun.
  unfold change_node_replay in *. revert Hrun. run_m.
  cases; intros Hrun; try discriminate Hrun.
  all: try match goal with
           | H1 : bool_decide (?vs <> ∅) = false,
             H2 : bool_decide (dom ?vs = handshake_keys) = true |- _ =>
               exfalso; apply bool_decide_eq_false in H1;
               apply bool_decide_eq_true in H2; apply H1;
               apply handshake_keys_nonempty; assumption
           end.
  all: injection Hrun as <-; simpl.
  all: split; [rewrite <- ?app_assoc, ?app_nil_r; reflexivity|].
  all: split; reflexivity.
Qed.

(** X23: A successful changeover of a session without a track replays no
    playback: after the handover of the registry the new node gets the
    merged voice update when both fragments are stored and the volume
    when it is not 100, and neither a [play] nor a [pause] command; the
    clock is not read and the timing fields are not written. *)
Theorem change_node_replays_idle (arg : option node_id) (w w' : World) :
  change_node transport clock get_best_node arg w = (Ok tt, w') ->
  _track (self w) = None ->
  let p := self w in
  let old := node p in
  let new := node (self w') in
  let gid := VStr (str (g_id (guild p))) in
  trace w' =
    trace w
    ++ [Deleted old (g_id (guild p));
        Sent old (destroy_command (g_id (guild p))) true;
        Stored new (g_id (guild p)) (me p)]
    ++ (if bool_decide (dom (_voice_state p) = handshake_keys)
        then [Sent new (<["op" := VStr "voiceUpdate"]>
                          (<["guildId" := gid]> (_voice_state p))) true]
        else [])
    ++ (if bool_decide (volume p <> 100)
        then [Sent new (kwargs [("op", VStr "volume"); ("guildId", gid);
                                ("volume", VInt (volume p))]) true]
        else [])
  /\ self w' = set_node new p
  /\ ticks w' = ticks w.
Proof.
  intros Hrun Htrack p old new gid.
  destruct (change_node_ok arg w w' Hrun) as (nw & w1 & c & q & Htg & Hc & Hq & Hrep).
  pose proof (change_node_target_frame arg w) as (Hs & Ht & Hk & Hp).
  rewrite Htg in Hs, Ht, Hk, Hp. simpl in Hs, Ht, Hk, Hp.
  fold p old in Hrep.
  assert (Htrack' :
            _track (self (attached nw (g_id (guild p))
                            (told old (destroy_command (g_id (guild p))) true
                               (detached old (g_id (guild p)) w1)))) = None)
    by (simpl; rewrite Hs; destruct (self w); exact Htrack).
  destruct (change_node_replay_idle _ w' Htrack' Hrep) as (Htr & Hself & Hticks).
  simpl in Htr, Hself, Hticks. rewrite Hs in Htr, Hself.
  rewrite Hk in Hticks. rewrite Ht in Htr. fold p in Htr, Hself.
  assert (Hnew : new = nw) by (subst new; rewrite Hself; destruct p; reflexivity).
  rewrite Hnew. split; [|split; assumption].
  rewrite Htr. destruct p. simpl. rewrite <- !app_assoc. reflexivity.
Qed.

End Properties.

(** ** Tracks *)

Lemma ytid_re_match_nonempty (s : string) :
  Track.ytid_re_match s = true -> s <> "".
Proof. intros H ->. discriminate H. Qed.

(** With a string for identifier the track is built, and its thumbnail
    is the URL made of the identifier exactly when the pattern matches. *)
Lemma track_init_thumb (id_ : value) (info : gmap string value)
    (query : option string) (s : string) :
  info !! "identifier" = Some (VStr s) ->
  exists t,
    Track.__init__ id_ info query = Ok t
    /\ Track.identifier t = VStr s
    /\ Track.thumb t =
       (if Track.ytid_re_match s then Some (Track.thumb_url s) else None).
Proof.
  intros H. unfold Track.__init__, Track.get. rewrite H. simpl.
  eexists. split; [reflexivity|]. simpl. split; [reflexivity|].
  destruct (Track.ytid_re_match s) eqn:Hm; [|reflexivity].
  rewrite bool_decide_eq_false_2; [reflexivity|].
  apply ytid_re_match_nonempty. exact Hm.
Qed.

(** Without an identifier, or with [None] for it, no track is built. *)
Lemma track_init_no_identifier (id_ : value) (info : gmap string value)
    (query : option string) :
  Track.get info "identifier" = VNone ->
  Track.__init__ id_ info query = Raise TypeError.
Proof. intros H. unfold Track.__init__. rewrite H. reflexivity. Qed.

(** C9, at the input where the code departs from it: a track description
    that has no [identifier] does not give a track without thumbnail,
    [Track.__init__] raises [TypeError] in [re.match]. *)
Theorem track_init_identifier_absent :
  Sample.local_file_info !! "identifier" = None
  /\ Track.__init__ (VStr "QAAAjQIAJVJpY2s=") Sample.local_file_info None =
     Raise TypeError.
Proof. split; reflexivity. Qed.

(** ** The theorems at sample sessions *)

Lemma first_open_respects_closing : respects_closing Sample.first_open.
Proof.
  intros ns r s n H. unfold Sample.first_open in H.
  apply find_some in H as [_ H]. exact H.
Qed.

Lemma run_ok {A} (m : M A) (w : World) (a : A) :
  fst (m w) = Ok a -> m w = (Ok a, snd (m w)).
Proof. destruct (m w) as [r w']. simpl. intros ->. reflexivity. Qed.

Lemma idle_reachable transport gateway clock :
  reachable transport gateway clock Sample.first_open Sample.idle.
Proof.
  apply (reach_init _ _ _ _ 1%nat Sample.the_guild 7 Sample.fresh_nodes []
           0%nat).
  reflexivity.
Qed.

(** A handshake: the session token, then the event, then the same event
    once more. *)
Lemma handshake_redispatches_same_pair :
  let w := run Sample.lossless Sample.gateway Sample.clock Sample.first_open
             [OnVoiceStateUpdate (VStr "sess") (Some 7);
              OnVoiceServerUpdate Sample.server_event;
              OnVoiceServerUpdate Sample.server_event] Sample.idle in
  let merged := kwargs [("op", VStr "voiceUpdate"); ("guildId", VStr "42");
                        ("sessionId", VStr "sess");
                        ("event", Sample.server_event)] in
  voice_updates (trace w) = [merged; merged]
  /\ ~ NoDup (voice_updates (trace w)).
Proof.
  assert (H : voice_updates
                (trace (run Sample.lossless Sample.gateway Sample.clock
                          Sample.first_open
                          [OnVoiceStateUpdate (VStr "sess") (Some 7);
                           OnVoiceServerUpdate Sample.server_event;
                           OnVoiceServerUpdate Sample.server_event]
                          Sample.idle)) =
              [kwargs [("op", VStr "voiceUpdate"); ("guildId", VStr "42");
                       ("sessionId", VStr "sess");
                       ("event", Sample.server_event)];
               kwargs [("op", VStr "voiceUpdate"); ("guildId", VStr "42");
                       ("sessionId", VStr "sess");
                       ("event", Sample.server_event)]])
    by (vm_compute; reflexivity).
  split; [exact H|]. rewrite H. intros Hnd.
  inversion Hnd as [|x l Hnotin _]. apply Hnotin. left.
Qed.

Lemma handshake_dispatch_witness :
  let w := snd (on_voice_state_update Sample.lossless (VStr "sess") (Some 7)
                  Sample.idle) in
  channel (self w) = Some 7
  /\ dom (_voice_state (self w)) ⊆ handshake_keys
  /\ trace (snd (on_voice_server_update Sample.lossless Sample.server_event w)) =
     trace w ++
       [Sent 0%nat
          (kwargs [("op", VStr "voiceUpdate"); ("guildId", VStr "42");
                   ("sessionId", VStr "sess");
                   ("event", Sample.server_event)]) true].
Proof.
  assert (Hdom : dom (_voice_state (self (snd (on_voice_state_update
                   Sample.lossless (VStr "sess") (Some 7) Sample.idle))))
                 ⊆ handshake_keys).
  { apply (reachable_voice_state Sample.lossless Sample.gateway Sample.clock
             Sample.first_open).
    apply (reach_call _ _ _ _ _ (OnVoiceStateUpdate (VStr "sess") (Some 7))).
    apply idle_reachable. }
  split; [reflexivity|]. split; [exact Hdom|].
  exact (proj2 (proj1 (handshake_dispatch Sample.lossless
                         (snd (on_voice_state_update Sample.lossless
                                 (VStr "sess") (Some 7) Sample.idle))
                         7 eq_refl Hdom)
                  Sample.server_event)).
Defined.

Lemma run_reachable transport gateway clock get_best_node cs w :
  reachable transport gateway clock get_best_node w ->
  reachable transport gateway clock get_best_node
    (run transport gateway clock get_best_node cs w).
Proof.
  revert w. induction cs as [|c cs IH]; intros w Hw; [exact Hw|].
  apply IH. apply reach_call. exact Hw.
Qed.

Lemma play_spec_witness :
  let w := Sample.playing Sample.lossless in
  channel (self w) = Some 7
  /\ play Sample.lossless Sample.song false 0 0 w = (Ok tt, w).
Proof.
  split; [reflexivity|].
  exact (play_spec Sample.lossless Sample.song false 0 0
           (Sample.playing Sample.lossless) 7 eq_refl).
Defined.

Lemma position_reads_witness :
  let w := Sample.playing Sample.lossless in
  (forall t,
     _connected (self w) = true -> _track (self w) = Some t ->
     as_num (last_update (self w)) = Some (Sample.clock 0)
     /\ as_num (last_position (self w)) = Some (inject_Z 0)
     /\ as_num (Track.duration t) = Some (inject_Z 240000))
  /\ fst (position Sample.clock w) =
     Ok (position_spec true true false (inject_Z 0) (Sample.clock 0)
           (inject_Z 240000) (Sample.clock 1)).
Proof.
  assert (H : forall t,
            _connected (self (Sample.playing Sample.lossless)) = true ->
            _track (self (Sample.playing Sample.lossless)) = Some t ->
            as_num (last_update (self (Sample.playing Sample.lossless)))
              = Some (Sample.clock 0)
            /\ as_num (last_position (self (Sample.playing Sample.lossless)))
               = Some (inject_Z 0)
            /\ as_num (Track.duration t) = Some (inject_Z 240000)).
  { intros t _ Ht. injection Ht as <-. repeat split; reflexivity. }
  split; [exact H|].
  exact (proj1 (position_reads Sample.clock (Sample.playing Sample.lossless)
                  (Sample.clock 0) (inject_Z 0) (inject_Z 240000) H)).
Defined.

Lemma set_volume_clamps_witness :
  let w := Sample.playing Sample.lossless in
  channel (self w) = Some 7
  /\ reachable Sample.lossless Sample.gateway Sample.clock Sample.first_open w
  /\ volume (self (snd (set_volume Sample.lossless 1500 w))) = 1000
  /\ volume (self (snd (set_volume Sample.lossless (-5) w))) = 0
  /\ trace (snd (set_volume Sample.lossless 1500 w)) =
     trace w ++
       [Sent 0%nat
          (kwargs [("op", VStr "volume"); ("guildId", VStr "42");
                   ("volume", VInt 1000)]) true]
  /\ 0 <= volume (self w) <= 1000.
Proof.
  pose proof (set_volume_clamps Sample.lossless Sample.gateway Sample.clock
                Sample.first_open) as (Hstore & Hsend & Hinv).
  assert (Hreach : reachable Sample.lossless Sample.gateway Sample.clock
                     Sample.first_open (Sample.playing Sample.lossless)).
  { apply run_reachable, idle_reachable. }
  split; [reflexivity|]. split; [exact Hreach|].
  split; [exact (Hstore (Sample.playing Sample.lossless) 1500)|].
  split; [exact (Hstore (Sample.playing Sample.lossless) (-5))|].
  split; [exact (Hsend (Sample.playing Sample.lossless) 1500 7 eq_refl)|].
  exact (Hinv _ Hreach).
Defined.

Lemma mirror_update_order_witness :
  let w := Sample.playing Sample.dead in
  channel (self w) = Some 7
  /\ _track (self w) = Some Sample.song
  /\ (fst (set_volume Sample.dead 1500 w) = Raise SendError
      /\ volume (self (snd (set_volume Sample.dead 1500 w))) = 1000)
  /\ set_pause Sample.dead true w =
     (Raise SendError,
      told 0%nat (kwargs [("op", VStr "pause"); ("guildId", VStr "42");
                          ("pause", VBool true)]) false w)
  /\ stop Sample.dead w =
     (Raise SendError,
      told 0%nat (kwargs [("op", VStr "stop"); ("guildId", VStr "42")])
        false w).
Proof.
  pose proof (mirror_update_order Sample.dead (Sample.playing Sample.dead) 7
                eq_refl) as (Hvol & Hpause & Hstop).
  split; [reflexivity|]. split; [reflexivity|].
  split; [rewrite (Hvol 1500); split; reflexivity|].
  split; [exact (Hpause true)|exact Hstop].
Defined.

Lemma change_node_refusals_witness :
  let w := Sample.playing Sample.lossless in
  let cur := node (self w) in
  Sample.none_open (<[cur := with_available false (nodes w cur)]> (nodes w))
    (region (nodes w cur)) (shard_id (nodes w cur)) = None
  /\ fst (change_node Sample.lossless Sample.clock Sample.none_open None w) =
     Raise (WavelinkException no_nodes_available)
  /\ node (self (snd (change_node Sample.lossless Sample.clock
                        Sample.none_open None w))) = 0%nat
  /\ fst (change_node Sample.lossless Sample.clock Sample.none_open
            (Some 0%nat) w) =
     Raise (WavelinkException already_on_node).
Proof.
  pose proof (change_node_refusals Sample.lossless Sample.clock
                Sample.none_open (Sample.playing Sample.lossless))
    as (Hsame & Hnone).
  destruct (Hnone eq_refl) as (Hr & Hs & _).
  split; [reflexivity|]. split; [exact Hr|].
  split; [exact (f_equal node Hs)|].
  exact (f_equal fst Hsame).
Defined.

Lemma sample_change_node_ok :
  fst (change_node Sample.lossless Sample.clock Sample.first_open
         (Some 1%nat) (Sample.playing Sample.lossless)) = Ok tt.
Proof. vm_compute. reflexivity. Qed.

Lemma sample_owned (n : node_id) :
  registry (Sample.playing Sample.lossless) n !! 42 = Some 1%nat -> n = 0%nat.
Proof. destruct n as [|n]; [reflexivity|]. intros H. discriminate H. Qed.

Lemma change_node_registry_witness :
  let w := Sample.playing Sample.lossless in
  let w' := snd (change_node Sample.lossless Sample.clock Sample.first_open
                   (Some 1%nat) w) in
  respects_closing Sample.first_open
  /\ change_node Sample.lossless Sample.clock Sample.first_open (Some 1%nat) w
     = (Ok tt, w')
  /\ (forall n, registry w n !! 42 = Some 1%nat -> n = 0%nat)
  /\ registry w' 1%nat !! 42 = Some 1%nat
  /\ registry w' 0%nat !! 42 = None
  /\ forall k, exists evs,
       trace w' = trace w ++ evs
       /\ exclusive (registry_after (take k evs) (registry w)) 42 1%nat.
Proof.
  pose proof (run_ok _ _ _ sample_change_node_ok) as Hrun.
  destruct (change_node_registry Sample.lossless Sample.clock
              Sample.first_open (Some 1%nat)
              (Sample.playing Sample.lossless) _
              first_open_respects_closing Hrun)
    as (_ & Hnew & Hold & rest & Htr & _ & _ & Hex).
  split; [exact first_open_respects_closing|]. split; [exact Hrun|].
  split; [exact sample_owned|]. split; [exact Hnew|]. split; [exact Hold|].
  intros k. eexists. split; [exact Htr|]. exact (Hex sample_owned k).
Defined.

Lemma sample_position :
  position_at (Sample.clock (ticks (Sample.playing Sample.lossless)))
    (self (Sample.playing Sample.lossless)) = Ok (123470 # 100)%Q.
Proof. vm_compute. reflexivity. Qed.

Lemma change_node_replays_witness :
  let w := Sample.playing Sample.lossless in
  let w' := snd (change_node Sample.lossless Sample.clock Sample.first_open
                   (Some 1%nat) w) in
  change_node Sample.lossless Sample.clock Sample.first_open (Some 1%nat) w
    = (Ok tt, w')
  /\ _track (self w) = Some Sample.song
  /\ exists pos,
       position_at (Sample.clock (ticks w)) (self w) = Ok pos
       /\ int pos = 1234
       /\ last_update (self w') = VFloat (Sample.clock 2).
Proof.
  pose proof (run_ok _ _ _ sample_change_node_ok) as Hrun.
  destruct (change_node_replays Sample.lossless Sample.clock
              Sample.first_open (Some 1%nat)
              (Sample.playing Sample.lossless) _ Sample.song Hrun eq_refl)
    as (pos & Hpos & _ & Hlast & _).
  split; [exact Hrun|]. split; [reflexivity|].
  exists pos. split; [exact Hpos|].
  split; [|exact Hlast].
  pose proof (eq_trans (eq_sym Hpos) sample_position) as Heq.
  injection Heq as ->. reflexivity.
Defined.

(** The changeover of a playing session, 1234.7 ms after the last report
    of the node: the position rounds to 1235, the [play] command carries
    1234. *)
Lemma change_node_start_time_truncated :
  let w := Sample.playing Sample.lossless in
  let r := change_node Sample.lossless Sample.clock Sample.first_open
             (Some 1%nat) w in
  fst r = Ok tt
  /\ _track (self w) = Some Sample.song
  /\ exists pos,
       position_at (Sample.clock (ticks w)) (self w) = Ok pos
       /\ (pos == 12347 # 10)%Q
       /\ round pos = 1235
       /\ trace (snd r) =
          trace w
          ++ [Deleted 0%nat 42; Sent 0%nat (destroy_command 42) true;
              Stored 1%nat 42 1%nat;
              Sent 1%nat
                (kwargs [("op", VStr "voiceUpdate"); ("guildId", VStr "42");
                         ("sessionId", VStr "sess");
                         ("event", Sample.server_event)]) true;
              Sent 1%nat
                (kwargs [("op", VStr "play"); ("guildId", VStr "42");
                         ("track", VStr "QAAAjQIAJVJpY2s=");
                         ("startTime", VInt 1234)]) true]
       /\ VInt 1234 <> VInt (round pos).
Proof.
  split; [exact sample_change_node_ok|]. split; [vm_compute; reflexivity|].
  exists (123470 # 100)%Q. split; [exact sample_position|].
  split; [vm_compute; reflexivity|]. split; [vm_compute; reflexivity|].
  split; [vm_compute; reflexivity|].
  intros H. vm_compute in H. discriminate H.
Qed.

Lemma change_node_destroy_raises_witness :
  let w := Sample.playing Sample.no_destroy in
  let r := change_node Sample.no_destroy Sample.clock Sample.first_open
             (Some 1%nat) w in
  fst (change_node_target Sample.first_open (Some 1%nat) w) = Ok 1%nat
  /\ channel (self w) = Some 7
  /\ registry w 0%nat !! 42 = Some 1%nat
  /\ Sample.no_destroy (trace w ++ [Deleted 0%nat 42]) 0%nat (destroy_command 42)
     = false
  /\ fst r = Raise SendError
  /\ self (snd r) = self w
  /\ registry (snd r) 0%nat !! 42 = None
  /\ registry (snd r) 1%nat = registry w 1%nat.
Proof.
  destruct (change_node_destroy_raises Sample.no_destroy Sample.clock
              Sample.first_open (Some 1%nat)
              (Sample.playing Sample.no_destroy) 1%nat 7 1%nat
              eq_refl eq_refl eq_refl eq_refl)
    as (Hr & Hs & _ & Hold & Hothers).
  split; [reflexivity|]. split; [reflexivity|]. split; [reflexivity|].
  split; [reflexivity|]. split; [exact Hr|]. split; [exact Hs|].
  split; [exact Hold|]. apply Hothers. discriminate.
Defined.

(** The changeover of a playing session over a transport that loses the
    [destroy] command: [change_node] raises, the player stays on node 0,
    node 1 never receives the session and nothing is replayed. *)
Lemma change_node_stops_at_failed_destroy :
  let w := Sample.playing Sample.no_destroy in
  let r := change_node Sample.no_destroy Sample.clock Sample.first_open
             (Some 1%nat) w in
  fst r = Raise SendError
  /\ node (self (snd r)) = node (self w)
  /\ node (self w) = 0%nat
  /\ registry (snd r) 1%nat !! 42 = None
  /\ registry (snd r) 0%nat !! 42 = None
  /\ trace (snd r) =
     trace w ++ [Deleted 0%nat 42; Sent 0%nat (destroy_command 42) false].
Proof.
  split; [vm_compute; reflexivity|]. split; [vm_compute; reflexivity|].
  split; [vm_compute; reflexivity|]. split; [vm_compute; reflexivity|].
  split; vm_compute; reflexivity.
Qed.

(** ** More on tracks *)

(** X1: A track is built exactly when the description holds a string under
    [identifier]. *)
Theorem track_init_ok_iff (id_ : value) (info : gmap string value)
    (query : option string) :
  is_ok (Track.__init__ id_ info query) = true <->
  exists s, info !! "identifier" = Some (VStr s).
Proof.
  unfold Track.__init__, Track.get. split.
  - destruct (info !! "identifier") as [[| | | |s|]|]; simpl;
      try discriminate. eauto.
  - intros [s ->]. reflexivity.
Qed.

(** X2: What the pattern accepts: eleven characters of the class, and
    nothing after them but, possibly, one newline. *)
Theorem ytid_re_match_spec (s : string) :
  Track.ytid_re_match s = true <->
  exists y,
    String.length y = 11%nat
    /\ Track.all_ytid_chars y = true
    /\ (s = y \/ s = (y ++ String "010"%char EmptyString)%string).
Proof.
  unfold Track.ytid_re_match. split.
  - intros H. apply andb_prop in H as [Hall Hlen].
    exists (substring 0 11 s).
    do 11 (destruct s as [|? s]; [discriminate Hlen|]).
    destruct s as [|c s].
    + repeat split; auto.
    + destruct s as [|? s]; [|discriminate Hlen].
      simpl in Hlen. apply bool_decide_eq_true in Hlen. injection Hlen as ->.
      repeat split; auto.
  - intros (y & Hlen & Hall & Hs).
    do 11 (destruct y as [|? y]; [discriminate Hlen|]).
    destruct y; [|discriminate Hlen].
    destruct Hs as [-> | ->]; simpl in *; rewrite Hall; reflexivity.
Qed.

(** X3: The fields of a track that was built: the description is read with
    [dict.get], so a missing key gives [None] and never an error;
    [duration] is the same value as [length]; the YouTube id is the
    identifier when the pattern accepts it; the thumbnail is the URL of
    that id and is absent exactly when the id is. *)
Theorem track_init_fields (id_ : value) (info : gmap string value)
    (query : option string) (t : Track) :
  Track.__init__ id_ info query = Ok t ->
  Track.id t = id_ /\ Track.info t = info /\ Track.query t = query
  /\ Track.title t = default VNone (info !! "title")
  /\ Track.length t = default VNone (info !! "length")
  /\ Track.duration t = Track.length t
  /\ Track.dead t = false
  /\ (exists s,
        Track.identifier t = VStr s
        /\ info !! "identifier" = Some (VStr s)
        /\ Track.ytid t = (if Track.ytid_re_match s then Some s else None))
  /\ Track.thumb t = Track.thumb_url <$> Track.ytid t.
Proof.
  unfold Track.__init__, Track.get.
  destruct (info !! "identifier") as [[| | | |s|]|] eqn:Hid; simpl;
    try discriminate.
  intros [= <-]. simpl. repeat (split; [reflexivity|]).
  split; [eauto|].
  destruct (Track.ytid_re_match s) eqn:Hm; [|reflexivity].
  rewrite bool_decide_eq_false_2; [reflexivity|].
  apply ytid_re_match_nonempty. exact Hm.
Qed.

Lemma track_init_fields_witness :
  Track.__init__ (VStr "QAAAjQIAJVJpY2s=") Sample.song_info None =
    Ok Sample.song
  /\ Track.duration Sample.song = VInt 240000
  /\ Track.thumb Sample.song =
     Some "https://img.youtube.com/vi/dQw4w9WgXcQ/maxresdefault.jpg".
Proof.
  assert (H : Track.__init__ (VStr "QAAAjQIAJVJpY2s=") Sample.song_info None =
              Ok Sample.song) by (vm_compute; reflexivity).
  destruct (track_init_fields _ _ _ _ H)
    as (_ & _ & _ & _ & Hlen & Hdur & _ & _ & Hthumb).
  split; [exact H|].
  split; [exact (eq_trans Hdur Hlen)|]. exact Hthumb.
Defined.

(** X4: A track whose description has no string under [title] cannot be
    printed: [str(track)] raises [TypeError]. *)
Theorem track_str_untitled (id_ : value) (info : gmap string value)
    (query : option string) (t : Track) :
  Track.__init__ id_ info query = Ok t ->
  (forall s, info !! "title" <> Some (VStr s)) ->
  Track.__str__ t = Raise TypeError.
Proof.
  intros Hinit Htitle.
  revert Hinit. unfold Track.__init__, Track.get.
  destruct (info !! "identifier") as [[| | | |s|]|]; simpl; try discriminate.
  intros [= <-]. unfold Track.__str__. simpl.
  destruct (info !! "title") as [[| | | |s'|]|] eqn:Hi; simpl;
    try reflexivity.
  destruct (Htitle s' eq_refl).
Qed.

Lemma track_str_untitled_witness :
  Track.__init__ (VStr "QAAAdAIABkxvZmk=") Sample.untitled_info None =
    Ok Sample.untitled
  /\ (forall s, Sample.untitled_info !! "title" <> Some (VStr s))
  /\ Track.__str__ Sample.untitled = Raise TypeError.
Proof.
  assert (H1 : Track.__init__ (VStr "QAAAdAIABkxvZmk=") Sample.untitled_info
                 None = Ok Sample.untitled) by (vm_compute; reflexivity).
  assert (H2 : forall s, Sample.untitled_info !! "title" <> Some (VStr s))
    by (intros s H; vm_compute in H; discriminate H).
  split; [exact H1|]. split; [exact H2|].
  exact (track_str_untitled _ _ _ _ H1 H2).
Defined.

(** ** The further properties at sample sessions *)


Lemma stop_keeps_unprintable_track_witness :
  let w := run Sample.lossless Sample.gateway Sample.clock Sample.first_open
             [Connect; Play Sample.untitled true 0 0] Sample.idle in
  channel (self w) = Some 7
  /\ _track (self w) = Some Sample.untitled
  /\ Track.__str__ Sample.untitled = Raise TypeError
  /\ fst (stop Sample.lossless w) = Raise TypeError
  /\ _track (self (snd (stop Sample.lossless w))) = Some Sample.untitled.
Proof.
  intros w.
  assert (H1 : channel (self w) = Some 7) by (vm_compute; reflexivity).
  assert (H2 : _track (self w) = Some Sample.untitled)
    by (vm_compute; reflexivity).
  assert (H3 : Track.__str__ Sample.untitled = Raise TypeError)
    by (vm_compute; reflexivity).
  pose proof (stop_keeps_unprintable_track Sample.lossless w 7
                Sample.untitled H1 H2 H3 eq_refl) as H.
  split; [exact H1|]. split; [exact H2|]. split; [exact H3|].
  split; [exact (f_equal fst H)|]. rewrite H. exact H2.
Defined.

Lemma seek_writes_nothing_witness :
  let w := Sample.playing Sample.lossless in
  channel (self w) = Some 7
  /\ fst (position Sample.clock (snd (seek Sample.lossless 30000 w))) =
     fst (position Sample.clock w).
Proof.
  intros w.
  assert (H1 : channel (self w) = Some 7) by (vm_compute; reflexivity).
  split; [exact H1|].
  exact (proj2 (seek_writes_nothing Sample.lossless Sample.clock 30000 w 7 H1)).
Defined.

Lemma connect_disconnect_flag_witness :
  channel (self Sample.idle) = Some 7
  /\ _connected (self (snd (connect Sample.gateway Sample.idle))) = true
  /\ _connected (self (snd (disconnect Sample.gateway Sample.idle))) = false.
Proof.
  assert (H1 : channel (self Sample.idle) = Some 7)
    by (vm_compute; reflexivity).
  destruct (connect_disconnect_flag Sample.gateway Sample.idle 7 H1)
    as (Hc & Hd).
  split; [exact H1|]. split; [rewrite Hc|rewrite Hd]; reflexivity.
Defined.

Lemma hook_drops_track_only_witness :
  let w' := snd (hook TrackEnd (Sample.playing Sample.lossless)) in
  terminal TrackEnd = true
  /\ is_playing (self w') = false
  /\ fst (position Sample.clock w') = Ok 0%Q.
Proof.
  intros w'.
  destruct (hook_drops_track_only Sample.clock TrackEnd
              (Sample.playing Sample.lossless))
    as (_ & _ & _ & _ & _ & H).
  destruct (H eq_refl) as (H1 & H2 & _).
  split; [reflexivity|]. split; [exact H1|exact (f_equal fst H2)].
Defined.

Lemma position_after_report_witness :
  let w := Sample.playing Sample.lossless in
  let st : gmap string value :=
    {["position" := VInt 5000; "time" := VInt 0]} in
  let state : gmap string (gmap string value) := {["state" := st]} in
  let elapsed :=
    (Sample.clock (S (ticks w)) - Sample.clock (ticks w))%Q in
  (inject_Z 5000 + elapsed <= inject_Z 240000)%Q
  /\ exists q,
       fst (position Sample.clock (snd (update_state Sample.clock state w)))
       = Ok q
       /\ (q == inject_Z 5000 + elapsed)%Q.
Proof.
  intros w st state elapsed.
  assert (Hle : (inject_Z 5000 + elapsed <= inject_Z 240000)%Q)
    by (vm_compute; discriminate).
  split; [exact Hle|].
  apply (position_after_report Sample.clock state st w Sample.song
           (inject_Z 5000) (inject_Z 240000) (VInt 5000)).
  - vm_compute. reflexivity.
  - vm_compute. reflexivity.
  - reflexivity.
  - vm_compute. reflexivity.
  - vm_compute. reflexivity.
  - vm_compute. reflexivity.
  - vm_compute. reflexivity.
  - exact Hle.
Defined.

Lemma position_ignores_clock_when_paused_witness :
  is_playing (self Sample.idle) = false
  /\ snd (position Sample.clock Sample.idle) = Sample.idle
  /\ position (fun _ => 0%Q) Sample.idle = position Sample.clock Sample.idle.
Proof.
  assert (H : is_playing (self Sample.idle) = false)
    by (vm_compute; reflexivity).
  destruct (position_ignores_clock_when_paused Sample.clock Sample.idle
              (fun _ => 0%Q) (or_intror H)) as (H1 & H2).
  split; [exact H|]. split; [exact H1|exact H2].
Defined.

Lemma position_monotone_witness :
  let p := self (Sample.playing Sample.lossless) in
  (Sample.clock 1 <= Sample.clock 2)%Q
  /\ (inject_Z 0 + (Sample.clock 2 - Sample.clock 0) <= inject_Z 240000)%Q
  /\ exists q1 q2,
       position_at (Sample.clock 1) p = Ok q1
       /\ position_at (Sample.clock 2) p = Ok q2
       /\ (q1 <= q2)%Q.
Proof.
  intros p.
  assert (H1 : (Sample.clock 1 <= Sample.clock 2)%Q)
    by (vm_compute; discriminate).
  assert (H2 : (inject_Z 0 + (Sample.clock 2 - Sample.clock 0)
                <= inject_Z 240000)%Q)
    by (vm_compute; discriminate).
  split; [exact H1|]. split; [exact H2|].
  apply (position_monotone p Sample.song (Sample.clock 0) (inject_Z 0)
           (inject_Z 240000) (Sample.clock 1) (Sample.clock 2)).
  - vm_compute. reflexivity.
  - vm_compute. reflexivity.
  - vm_compute. reflexivity.
  - vm_compute. reflexivity.
  - vm_compute. reflexivity.
  - vm_compute. reflexivity.
  - exact H1.
  - exact H2.
Defined.

Lemma position_at_most_duration_witness :
  let w := Sample.playing Sample.lossless in
  _track (self w) = Some Sample.song
  /\ as_num (Track.duration Sample.song) = Some (inject_Z 240000)
  /\ (0 <= inject_Z 240000)%Q
  /\ position_at (Sample.clock (ticks w)) (self w) = Ok (123470 # 100)%Q
  /\ (123470 # 100 <= inject_Z 240000)%Q.
Proof.
  intros w.
  assert (H1 : _track (self w) = Some Sample.song)
    by (vm_compute; reflexivity).
  assert (H2 : as_num (Track.duration Sample.song) = Some (inject_Z 240000))
    by (vm_compute; reflexivity).
  assert (H3 : (0 <= inject_Z 240000)%Q) by (vm_compute; discriminate).
  split; [exact H1|]. split; [exact H2|]. split; [exact H3|].
  split; [exact sample_position|].
  exact (position_at_most_duration (self w) Sample.song (inject_Z 240000)
           (Sample.clock (ticks w)) (123470 # 100)%Q H1 H2 H3
           sample_position).
Defined.

Lemma position_after_play_witness :
  let w := snd (connect Sample.gateway Sample.idle) in
  let w' := snd (play Sample.lossless Sample.song true 0 0 w) in
  channel (self w) = Some 7
  /\ _connected (self w) = true
  /\ (inject_Z 240000 < Sample.clock (ticks w'))%Q
  /\ fst (position Sample.clock w') = Ok 0%Q.
Proof.
  intros w w'.
  assert (H1 : channel (self w) = Some 7) by (vm_compute; reflexivity).
  assert (H2 : _connected (self w) = true) by (vm_compute; reflexivity).
  assert (H3 : as_num (Track.duration Sample.song) = Some (inject_Z 240000))
    by (vm_compute; reflexivity).
  assert (H4 : (inject_Z 240000 < Sample.clock (ticks w'))%Q)
    by (vm_compute; reflexivity).
  split; [exact H1|]. split; [exact H2|]. split; [exact H4|].
  exact (position_after_play Sample.lossless Sample.clock Sample.song 0 0 w 7
           (inject_Z 240000) H1 H2 H3 H4).
Defined.

Lemma init_registers_witness :
  exists w,
    __init__ Sample.first_open 1%nat Sample.the_guild 7 Sample.fresh_nodes
      [] 0%nat = Ok w
    /\ node (self w) = 0%nat
    /\ registry w 0%nat !! 42 = Some 1%nat
    /\ nodes w 1%nat = Sample.fresh_nodes 1%nat.
Proof.
  assert (Hsel : Sample.first_open Sample.fresh_nodes None None = Some 0%nat)
    by reflexivity.
  pose proof (init_registers Sample.clock Sample.first_open 1%nat
                Sample.the_guild 7 Sample.fresh_nodes [] 0%nat) as H.
  rewrite Hsel in H. destruct H as (w & Hw & Hn & Hreg & Hother & _).
  exists w. split; [exact Hw|]. split; [exact Hn|].
  split; [rewrite Hreg; apply lookup_insert_eq|].
  apply Hother. discriminate.
Defined.

Lemma voice_state_update_unknown_channel_witness :
  let r := on_voice_state_update Sample.lossless (VStr "sess") (Some 99)
             Sample.idle in
  channel (self Sample.idle) = Some 7
  /\ ~ In 99 (g_channels (guild (self Sample.idle)))
  /\ fst r = Raise AttributeError
  /\ channel (self (snd r)) = None
  /\ trace (snd r) = trace Sample.idle.
Proof.
  intros r.
  assert (H1 : channel (self Sample.idle) = Some 7)
    by (vm_compute; reflexivity).
  assert (H2 : ~ In 99 (g_channels (guild (self Sample.idle))))
    by (intros H; vm_compute in H; destruct H as [H|[H|[]]]; discriminate H).
  pose proof (voice_state_update_unknown_channel Sample.lossless (VStr "sess")
                99 Sample.idle 7 H1 H2) as H.
  split; [exact H1|]. split; [exact H2|].
  subst r. rewrite H. split; [reflexivity|]. split; reflexivity.
Defined.


Lemma only_change_node_moves_witness :
  let w := Sample.playing Sample.lossless in
  let w' := snd (exec Sample.lossless Sample.gateway Sample.clock
                   Sample.first_open Stop w) in
  (forall n, Stop <> ChangeNode n)
  /\ nodes w' = nodes w /\ node (self w') = node (self w).
Proof.
  intros w w'.
  assert (H : forall n, Stop <> ChangeNode n) by (intros n; discriminate).
  destruct (only_change_node_moves Sample.lossless Sample.gateway Sample.clock
              Sample.first_open Stop w H) as (H1 & H2 & _).
  split; [exact H|]. split; [exact H1|exact H2].
Defined.

Lemma reachable_clocked_witness :
  let w := Sample.playing Sample.lossless in
  reachable Sample.lossless Sample.gateway Sample.clock Sample.first_open w
  /\ clocked (self w).
Proof.
  intros w.
  assert (H : reachable Sample.lossless Sample.gateway Sample.clock
                Sample.first_open w)
    by (apply run_reachable, idle_reachable).
  split; [exact H|].
  exact (reachable_clocked Sample.lossless Sample.gateway Sample.clock
           Sample.first_open w H).
Defined.

Lemma sample_idle_change_node_ok :
  fst (change_node Sample.lossless Sample.clock Sample.first_open
         (Some 1%nat) Sample.idle) = Ok tt.
Proof. vm_compute. reflexivity. Qed.

Lemma change_node_replays_idle_witness :
  let w := Sample.idle in
  let w' := snd (change_node Sample.lossless Sample.clock Sample.first_open
                   (Some 1%nat) w) in
  change_node Sample.lossless Sample.clock Sample.first_open (Some 1%nat) w
    = (Ok tt, w')
  /\ _track (self w) = None
  /\ self w' = set_node (node (self w')) (self w)
  /\ ticks w' = ticks w.
Proof.
  intros w w'.
  pose proof (run_ok _ _ _ sample_idle_change_node_ok) as Hrun.
  assert (Ht : _track (self w) = None) by (vm_compute; reflexivity).
  destruct (change_node_replays_idle Sample.lossless Sample.clock
              Sample.first_open (Some 1%nat) w w' Hrun Ht)
    as (_ & Hself & Hticks).
  split; [exact Hrun|]. split; [exact Ht|]. split; [exact Hself|exact Hticks].
Defined.

Lemma change_node_unregistered_witness :
  let w := snd (change_node Sample.no_destroy Sample.clock Sample.first_open
                  (Some 1%nat) (Sample.playing Sample.no_destroy)) in
  fst (change_node_target Sample.first_open (Some 2%nat) w) = Ok 2%nat
  /\ channel (self w) = Some 7
  /\ registry w (node (self w)) !! g_id (guild (self w)) = None
  /\ fst (change_node Sample.no_destroy Sample.clock Sample.first_open
            (Some 2%nat) w) = Raise KeyError.
Proof.
  intros w.
  assert (H1 : fst (change_node_target Sample.first_open (Some 2%nat) w)
               = Ok 2%nat) by (vm_compute; reflexivity).
  assert (H2 : channel (self w) = Some 7) by (vm_compute; reflexivity).
  assert (H3 : registry w (node (self w)) !! g_id (guild (self w)) = None)
    by (vm_compute; reflexivity).
  split; [exact H1|]. split; [exact H2|]. split; [exact H3|].
  exact (proj1 (change_node_unregistered Sample.no_destroy Sample.clock
                  Sample.first_open (Some 2%nat) w 2%nat 7 H1 H2 H3)).
Defined.

Lemma change_node_no_retry_witness :
  let w := Sample.playing Sample.no_destroy in
  let old := node (self w) in
  let gid := g_id (guild (self w)) in
  1%nat <> old /\ 2%nat <> old
  /\ channel (self w) = Some 7
  /\ registry w old !! gid = Some 1%nat
  /\ Sample.no_destroy (trace w ++ [Deleted old gid]) old (destroy_command gid)
     = false
  /\ fst (change_node Sample.no_destroy Sample.clock Sample.first_open
            (Some 2%nat)
            (snd (change_node Sample.no_destroy Sample.clock
                    Sample.first_open (Some 1%nat) w))) = Raise KeyError.
Proof.
  intros w old gid.
  assert (H1 : 1%nat <> old) by (intros H; vm_compute in H; discriminate H).
  assert (H2 : 2%nat <> old) by (intros H; vm_compute in H; discriminate H).
  assert (H3 : channel (self w) = Some 7) by (vm_compute; reflexivity).
  assert (H4 : registry w old !! gid = Some 1%nat)
    by (vm_compute; reflexivity).
  assert (H5 : Sample.no_destroy (trace w ++ [Deleted old gid]) old
                 (destroy_command gid) = false)
    by (vm_compute; reflexivity).
  split; [exact H1|]. split; [exact H2|]. split; [exact H3|].
  split; [exact H4|]. split; [exact H5|].
  exact (change_node_no_retry Sample.no_destroy Sample.clock Sample.first_open
           w 1%nat 2%nat 7 1%nat H1 H2 H3 H4 H5).
Defined.
